(** * FTP-Security-Scanner: the class [ftpSecurityTest] of [src/utils/ftp.py]

    A shallow embedding of the three measuring methods of the class,
    - [__getContent] / [getContent]   (recursive listing of the server),
    - [checkWriteAndDeleteAccess]     (creation and deletion probe),
    - [getMaxRights]                  (maximal Unix rights of a listing),
    over an explicit model of the [ftplib.FTP] control connection, and the
    properties the specification states about them.

    Python values are modelled as follows: [int] as [Z], [str] as [string],
    the dictionary [level] as a [gmap string tree], the nine-slot tables
    [result_dir] / [result_file] as [list bool] updated by index, and the
    exceptions of [ftplib] as the value [Raises e] of an [outcome]. *)

From Stdlib Require Import ZArith Ascii String List Lia DecimalString.
From Stdlib Require Import DecimalZ DecimalPos.
From stdpp Require Import gmap strings list.

#[local] Set Warnings "-register-all".
#[local] Set Warnings "-clear-no-such-hyp".
#[local] Open Scope Z_scope.

(** ** Exceptions and commands of the control connection *)

(** The exception classes of [ftplib] the methods discriminate between;
    [error_other] stands for everything else a command can raise
    ([socket.error], [EOFError], ...), which no handler of the class names. *)
Inductive ftp_error : Set :=
  | error_perm | error_temp | error_reply | error_proto | error_other.

#[global] Instance ftp_error_eq_dec : EqDecision ftp_error.
Proof. solve_decision. Defined.

(** The methods of [ftplib.FTP] the class calls on [self.ftp_instance]. *)
Inductive command : Set :=
  | NLST                       (* nlst()                           *)
  | CWD (path : string)        (* cwd(path)                        *)
  | MKD (name : string)        (* mkd(name)                        *)
  | RMD (name : string)        (* rmd(name)                        *)
  | STOR (name : string)       (* storbinary("STOR " + name, ...)  *)
  | DELE (name : string)       (* delete(name)                     *)
  | LIST.                      (* dir(callback)                    *)

#[global] Instance command_eq_dec : EqDecision command.
Proof. solve_decision. Defined.

(** What the server answers: the lines of a listing (empty for the commands
    that return nothing the class looks at), or an exception. *)
Inductive reply : Set :=
  | Ok (lines : list string)
  | Err (e : ftp_error).

(** Result of running a method: a value, an exception that left the method,
    or [OutOfFuel] when the bound on the recursion depth of the model is hit
    (the Python code has no such bound of its own). *)
Inductive outcome (A : Type) : Type :=
  | Returns (a : A)
  | Raises (e : ftp_error)
  | OutOfFuel.
Arguments Returns {A} a.
Arguments Raises {A} e.
Arguments OutOfFuel {A}.

(** ** RightsCodec: the pure part of [getMaxRights] (lines 244-324) *)

Module Rights.

(** The four variables the loop over [data] updates. *)
Record tables : Set := Tables {
  is_valid_dir : bool;
  is_valid_file : bool;
  result_dir : list bool;
  result_file : list bool
}.

(** [line[i] == c]. Every use is guarded by [len(line) > 10] with [i <= 9],
    so the index is in range and Python's [IndexError] cannot occur. *)
Definition char_is (line : string) (i : nat) (c : ascii) : bool :=
  bool_decide (String.get i line = Some c).

(** Lines 248-249. *)
Definition no_rights : list bool :=
  [false; false; false; false; false; false; false; false; false].

Definition initial : tables :=
  Tables false false no_rights no_rights.

(** The condition of lines 262-264 for position [i] of [line]. *)
Definition grants (line : string) (i : nat) : bool :=
  let right_type := (i `mod` 3)%nat in
  (char_is line i "r" && bool_decide (right_type = 1%nat))
  || (char_is line i "w" && bool_decide (right_type = 2%nat))
  || ((char_is line i "x" || char_is line i "X" || char_is line i "s")
      && bool_decide (right_type = 0%nat)).

(** Body of [for i in range(1, 10)] (lines 260-268). *)
Definition mark (line : string) (t : tables) (i : nat) : tables :=
  if grants line i then
    if char_is line 0 "d" then
      Tables (is_valid_dir t) (is_valid_file t)
             (<[(i - 1)%nat := true]> (result_dir t)) (result_file t)
    else
      Tables (is_valid_dir t) (is_valid_file t)
             (result_dir t) (<[(i - 1)%nat := true]> (result_file t))
  else t.

(** Body of [for line in data] (lines 251-268). *)
Definition read_line (t : tables) (line : string) : tables :=
  if (10 <? String.length line)%nat then
    if char_is line 0 "-" || char_is line 0 "d" then
      let t' :=
        if char_is line 0 "d"
        then Tables true (is_valid_file t) (result_dir t) (result_file t)
        else Tables (is_valid_dir t) true (result_dir t) (result_file t) in
      foldl (mark line) t' (seq 1 9)
    else t
  else t.

(** [result[k] == True]. *)
Definition slot (result : list bool) (k : nat) : bool :=
  bool_decide (result !! k = Some true).

(** Lines 275-295 (for directories) and 300-320 (the same text for files). *)
Definition to_number (result : list bool) : Z :=
  let r0 := 0 in
  let r1 := if slot result 0 then r0 + 400 else r0 in
  let r2 := if slot result 1 then r1 + 200 else r1 in
  let r3 := if slot result 2 then r2 + 100 else r2 in
  let r4 := if slot result 3 then r3 + 40 else r3 in
  let r5 := if slot result 4 then r4 + 20 else r4 in
  let r6 := if slot result 5 then r5 + 10 else r5 in
  let r7 := if slot result 6 then r6 + 4 else r6 in
  let r8 := if slot result 7 then r7 + 2 else r7 in
  if slot result 8 then r8 + 1 else r8.

(** Lines 244-324: everything [getMaxRights] does once [data] is filled.
    The specification calls this function [parseMaxRights]. *)
Definition parseMaxRights (data : list string) : Z * Z :=
  if (length data <=? 0)%nat then (-1, -1)
  else
    let t := foldl read_line initial data in
    if negb (is_valid_dir t) && negb (is_valid_file t) then (-1, -1)
    else
      (if is_valid_dir t then to_number (result_dir t) else -1,
       if is_valid_file t then to_number (result_file t) else -1).

End Rights.

(** ** The control connection [self.ftp_instance] *)

(** A server is a state machine answering one command at a time; the state
    holds whatever the server remembers between commands (its file system,
    the current working directory of the session). *)
Class FTP (server : Type) : Type := {
  respond : command -> server -> reply * server
}.

(** [self.ftp_instance]: the server behind the connection, and, oldest
    first, every command issued on it together with its answer. *)
Record ftp_instance (server : Type) : Type := Connection {
  server_state : server;
  history : list (command * reply)
}.
Arguments Connection {server} _ _.
Arguments server_state {server} _.
Arguments history {server} _.

(** A method: it runs on the connection, changes it, and returns or raises. *)
Definition M (server A : Type) : Type :=
  ftp_instance server -> outcome A * ftp_instance server.

Section Monad.
Context {server : Type}.

Definition ret {A} (a : A) : M server A := fun ftp => (Returns a, ftp).

Definition bind {A B} (m : M server A) (k : A -> M server B) : M server B :=
  fun ftp =>
    match m ftp with
    | (Returns a, ftp') => k a ftp'
    | (Raises e, ftp') => (Raises e, ftp')
    | (OutOfFuel, ftp') => (OutOfFuel, ftp')
    end.

Definition out_of_fuel {A} : M server A := fun ftp => (OutOfFuel, ftp).

(** [try: body / except <caught>: handler / else: orelse]. The [else] suite
    runs after a [body] that did not raise and is not protected by the
    handler. *)
Definition try_except_else {A B} (body : M server A) (caught : ftp_error -> bool)
    (handler : M server B) (orelse : A -> M server B) : M server B :=
  fun ftp =>
    match body ftp with
    | (Returns a, ftp') => orelse a ftp'
    | (Raises e, ftp') => if caught e then handler ftp' else (Raises e, ftp')
    | (OutOfFuel, ftp') => (OutOfFuel, ftp')
    end.

(** [try: body / except <caught>: handler]. *)
Definition try_except {A} (body : M server A) (caught : ftp_error -> bool)
    (handler : M server A) : M server A :=
  try_except_else body caught handler ret.

(** [for x in l: acc = body(acc, x)]. *)
Fixpoint for_each {A B} (body : B -> A -> M server B) (acc : B) (l : list A)
    : M server B :=
  match l with
  | [] => ret acc
  | x :: l' => bind (body acc x) (fun acc' => for_each body acc' l')
  end.

(** One call of a method of [ftplib.FTP]. *)
Definition call `{FTP server} (c : command) : M server (list string) :=
  fun ftp =>
    let '(r, s') := respond c (server_state ftp) in
    let ftp' := Connection s' (history ftp ++ [(c, r)]) in
    match r with
    | Ok lines => (Returns lines, ftp')
    | Err e => (Raises e, ftp')
    end.

End Monad.

Declare Scope ftp_scope.
Delimit Scope ftp_scope with ftp.
Notation "x <- m ;; k" := (bind m (fun x => k))
  (at level 100, m at next level, right associativity) : ftp_scope.
Notation "m ;; k" := (bind m (fun _ => k))
  (at level 100, right associativity) : ftp_scope.
#[local] Open Scope ftp_scope.

(** [except ftplib.error_perm]. *)
Definition only_perm (e : ftp_error) : bool :=
  match e with
  | error_perm => true
  | _ => false
  end.

(** [except (ftplib.error_perm, ftplib.error_temp, ftplib.error_reply,
    ftplib.error_proto)] (line 85). *)
Definition ftplib_errors (e : ftp_error) : bool :=
  match e with
  | error_perm | error_temp | error_reply | error_proto => true
  | error_other => false
  end.

(** ** PermissionProbe: [checkWriteAndDeleteAccess] (lines 189-223) *)

Section Probe.
Context `{FTP server}.

Definition checkWriteAndDeleteAccess (dir_name filename : string)
    : M server (list bool) :=
  (* Test directory creation and deletion *)
  dir_flags <-
    try_except_else (call (MKD dir_name)) only_perm
      (ret (false, false))
      (fun _ =>
         try_except_else (call (RMD dir_name)) only_perm
           (ret (true, false))
           (fun _ => ret (true, true))) ;;
  (* Test file upload and deletion *)
  file_flags <-
    try_except_else (call (STOR filename)) only_perm
      (ret (false, false))
      (fun _ =>
         try_except_else (call (DELE filename)) only_perm
           (ret (true, false))
           (fun _ => ret (true, true))) ;;
  let '(can_create_dir, can_delete_dir) := dir_flags in
  let '(can_upload_file, can_delete_file) := file_flags in
  ret [can_create_dir; can_delete_dir; can_upload_file; can_delete_file].

(** Lines 234-246 of [getMaxRights], then the pure part. [dir] hands every
    line of the listing to [data.append]. *)
Definition getMaxRights : M server (Z * Z) :=
  try_except_else (call LIST) only_perm
    (ret (-1, -1))
    (fun data => ret (Rights.parseMaxRights data)).

End Probe.

(** ** Default names of the probe (lines 177-178)

    The default values of [dir_name] and [filename] are expressions of the
    [def] statement: Python evaluates them when the statement is executed,
    that is once, when the class body runs, and stores the two strings with
    the function. A call that omits an argument reads the stored string. *)

(** [str(n)] for an [int]. *)
Definition str (n : Z) : string := NilZero.string_of_int (Z.to_int n).

(** What the [def] statement stores with the function. *)
Record defaults : Set := Defaults {
  dir_name_default : string;
  filename_default : string
}.

Section Definition_time.
(** The state of the module [random] and its function [randrange]. *)
Context {rng : Type} (randrange : Z -> Z -> rng -> Z * rng).

(** Executing [def checkWriteAndDeleteAccess(self, dir_name=..., filename=...)]. *)
Definition def_checkWriteAndDeleteAccess (g : rng) : defaults * rng :=
  let '(n1, g1) := randrange 100000000 900000000 g in
  let '(n2, g2) := randrange 100000000 900000000 g1 in
  (Defaults ("folder_to_delete_" +:+ str n1) ("file_to_delete_" +:+ str n2), g2).

End Definition_time.

(** A call [checkWriteAndDeleteAccess(...)] in which each argument is given
    ([Some]) or omitted ([None]). *)
Definition checkWriteAndDeleteAccess_call `{FTP server} (d : defaults)
    (dir_name filename : option string) : M server (list bool) :=
  checkWriteAndDeleteAccess (default (dir_name_default d) dir_name)
                            (default (filename_default d) filename).

(** ** DirectoryTreeScanner: [__getContent] (lines 58-90) and [getContent] *)

(** What [__getContent] returns: [''] (written [Leaf]), ['+'] (written
    [Truncated]) or the dictionary [level]. *)
Inductive tree : Type :=
  | Leaf
  | Truncated
  | Subtree (level : gmap string tree).

(** The values the parameter [optimized] is bound to: the default [True],
    and the integer the recursive call of line 81 passes in its place. *)
Inductive pyval : Set :=
  | PyBool (b : bool)
  | PyInt (n : Z).

(** Truth value of an object, as [not optimized] takes it. *)
Definition truthy (v : pyval) : bool :=
  match v with
  | PyBool b => b
  | PyInt n => negb (n =? 0)
  end.

(** [s.split(sep)] for a one-character separator. *)
Fixpoint split (sep : ascii) (s : string) : list string :=
  match s with
  | EmptyString => [EmptyString]
  | String c s' =>
      if bool_decide (c = sep) then EmptyString :: split sep s'
      else match split sep s' with
           | piece :: pieces => String c piece :: pieces
           | [] => [String c EmptyString]
           end
  end.

(** [s.find(c)]: index of the first [c], or -1. *)
Fixpoint find (c : ascii) (s : string) : Z :=
  match s with
  | EmptyString => -1
  | String a s' =>
      if bool_decide (a = c) then 0
      else let k := find c s' in if k <? 0 then -1 else k + 1
  end.

(** Lines 68-69: [entry_split[len(entry_split) - 1]]. *)
Definition entry_name (entry : string) : string :=
  let entry_split := split "/" entry in
  List.nth (length entry_split - 1) entry_split EmptyString.

(** The filter of the generator of line 67. *)
Definition listed (path : string) : bool :=
  negb (bool_decide (path = "." \/ path = "..")).

Section Scanner.
Context `{FTP server}.

(** Lines 68-86, the body of the loop, for the recursive call [recurse] of
    line 81. When the handler of line 85 runs after line 81 has stored the
    subtree, it overwrites that same key, so the dictionary it leaves is
    [level] as it was before the [try], with [name] bound to ['']. *)
Definition visit (recurse : M server tree) (optimized : pyval)
    (level : gmap string tree) (entry : string) : M server (gmap string tree) :=
  let name := entry_name entry in
  try_except
    (if (find "." name <=? 0) || negb (truthy optimized) then
       call (CWD entry) ;;
       sub <- recurse ;;
       call (CWD "..") ;;
       ret (<[name := sub]> level)
     else
       ret (<[name := Leaf]> level))
    ftplib_errors
    (ret (<[name := Leaf]> level)).

(** [__getContent(self, max_depth, max_files, optimized, count, depth)].
    [fuel] bounds the depth of the recursion. The call of line 81,
    [self.__getContent(max_depth, max_files, count, depth + 1)], is
    positional: its third argument [count] is bound to the parameter
    [optimized], its fourth argument [depth + 1] to the parameter [count],
    and [depth] takes its default 0. *)
Fixpoint __getContent (fuel : nat) (max_depth max_files : Z) (optimized : pyval)
    (count depth : Z) : M server tree :=
  match fuel with
  | O => out_of_fuel
  | S fuel' =>
      let count := if max_files >=? 0 then count + 1 else count in
      if (max_files >=? 0) && (count >=? max_files) then ret Truncated
      else if (max_depth >=? 0) && (depth >? max_depth) then ret Truncated
      else
        paths <- call NLST ;;
        level <- for_each
                   (visit (__getContent fuel' max_depth max_files
                             (PyInt count) (depth + 1) 0)
                          optimized)
                   ∅ (List.filter listed paths) ;;
        ret (Subtree level)
  end.

(** [getContent(self, max_depth, max_files)] (line 174): [optimized],
    [count] and [depth] take their defaults [True], -1 and 0. *)
Definition getContent (fuel : nat) (max_depth max_files : Z) : M server tree :=
  __getContent fuel max_depth max_files (PyBool true) (-1) 0.

End Scanner.

(** ** Two servers to run the methods on *)

(** A server that plays back a list of answers, whatever it is asked. *)
Module Script.

Definition state : Type := list reply.

#[global] Instance server : FTP state := {
  respond _ s :=
    match s with
    | r :: s' => (r, s')
    | [] => (Err error_other, [])
    end
}.

Definition connect (s : state) : ftp_instance state := Connection s [].

End Script.

(** A read-only server over a tree of folders and files. A folder can be
    entered; listing it is refused (550, [error_perm]) when it is not
    [listable]. *)
Module MockFS.

Inductive node : Type :=
  | File
  | Folder (listable : bool) (content : list (string * node)).

(** The session: the tree, and the working directory as the path from the
    root, outermost folder first. *)
Record state : Type := State {
  root : node;
  cwd : list string
}.

Fixpoint child (name : string) (content : list (string * node)) : option node :=
  match content with
  | [] => None
  | (n, x) :: rest => if bool_decide (n = name) then Some x else child name rest
  end.

Fixpoint at_path (n : node) (path : list string) : option node :=
  match path with
  | [] => Some n
  | name :: path' =>
      match n with
      | File => None
      | Folder _ content =>
          match child name content with
          | Some x => at_path x path'
          | None => None
          end
      end
  end.

#[global] Instance server : FTP state := {
  respond c s :=
    match c with
    | NLST =>
        match at_path (root s) (cwd s) with
        | Some (Folder true content) => (Ok (map fst content), s)
        | _ => (Err error_perm, s)
        end
    | CWD path =>
        if bool_decide (path = "..") then
          (Ok [], State (root s) (removelast (cwd s)))
        else
          match at_path (root s) (cwd s ++ [path]) with
          | Some (Folder _ _) => (Ok [], State (root s) (cwd s ++ [path]))
          | _ => (Err error_perm, s)
          end
    | _ => (Err error_perm, s)
    end
}.

Definition connect (fs : node) : ftp_instance state := Connection (State fs []) [].

(** Every folder of the tree can be listed. *)
Fixpoint listable_everywhere (n : node) : bool :=
  match n with
  | File => true
  | Folder listable content =>
      listable
      && (fix all (content : list (string * node)) : bool :=
            match content with
            | [] => true
            | (_, x) :: rest => listable_everywhere x && all rest
            end) content
  end.

(** Number of nested folders. *)
Fixpoint height (n : node) : nat :=
  match n with
  | File => 0%nat
  | Folder _ content =>
      S ((fix highest (content : list (string * node)) : nat :=
            match content with
            | [] => 0%nat
            | (_, x) :: rest => Nat.max (height x) (highest rest)
            end) content)
  end.

Definition is_folder (n : node) : bool :=
  match n with
  | File => false
  | Folder _ _ => true
  end.

(** A method that, started in state [s], raises nothing and returns with
    the server in state [s] again, or runs out of fuel, which implies
    [short]. *)
Definition restoring {A} (short : Prop) (m : M state A) (s : state) : Prop :=
  forall h,
    match m (Connection s h) with
    | (Returns _, ftp') => server_state ftp' = s
    | (Raises _, _) => False
    | (OutOfFuel, _) => short
    end.

End MockFS.

(** ** IP utilities: [src/utils/ip.py]

    An IP is a Python integer ([Z]); a range [[first, last]] is a pair. A
    function that can leave by [struct.error] returns an [option], [None]
    standing for the exception. What is written to [logging] is not
    modelled. *)

Module Ip.

(** [struct.pack('!I', n)]: the four bytes of [n], most significant first;
    [struct.error] when [n] is not in 0 .. 2^32 - 1. *)
Definition pack_I (n : Z) : option (list Z) :=
  if (0 <=? n) && (n <=? 4294967295) then
    Some [Z.land (Z.shiftr n 24) 255; Z.land (Z.shiftr n 16) 255;
          Z.land (Z.shiftr n 8) 255; Z.land n 255]
  else None.

(** [socket.inet_ntoa(packed)]: the bytes in decimal, joined by dots. *)
Definition inet_ntoa (packed : list Z) : string :=
  String.concat "." (map str packed).

(** [intToIp(n)] (line 44). *)
Definition intToIp (n : Z) : option string :=
  match pack_I n with
  | Some packed => Some (inet_ntoa packed)
  | None => None
  end.

(** [getValidPublicIpRange()] (lines 68-81). *)
Definition getValidPublicIpRange : list (Z * Z) :=
  [(16777216, 167772159);
   (184549376, 1681915903);
   (1686110208, 2130641151);
   (2147483648, 2851995647);
   (2852061184, 2886729727);
   (2887778304, 3221225471);
   (3221225728, 3221225983);
   (3221226240, 3227017983);
   (3227018240, 3232235519);
   (3232301056, 3323068415);
   (3323199488, 3325256703);
   (3325256960, 3405803775);
   (3405804032, 3744923903)].

(** [getNumberOfPublicIp()] (line 89). *)
Definition getNumberOfPublicIp : Z := 3689020672.

(** Body of the loop of [getValidPublicIps] (lines 113-118). *)
Definition clip (ip_begin ip_end : Z) (valid_ip_ranges : list (Z * Z))
    (public_range : Z * Z) : list (Z * Z) :=
  if (fst public_range <=? ip_end) && (snd public_range >=? ip_begin) then
    let local_ip_begin := Z.max ip_begin (fst public_range) in
    let local_ip_end := Z.min ip_end (snd public_range) in
    if local_ip_begin <=? local_ip_end
    then valid_ip_ranges ++ [(local_ip_begin, local_ip_end)]
    else valid_ip_ranges
  else valid_ip_ranges.

(** [getValidPublicIps(ip_begin, ip_end)] (lines 106-119). The message of
    line 109 is built from [intToIp(ip_end)] and [intToIp(ip_begin)], in
    this order, before the empty list is returned. *)
Definition getValidPublicIps (ip_begin ip_end : Z) : option (list (Z * Z)) :=
  if ip_begin >? ip_end then
    match intToIp ip_end with
    | Some _ =>
        match intToIp ip_begin with
        | Some _ => Some []
        | None => None
        end
    | None => None
    end
  else Some (foldl (clip ip_begin ip_end) [] getValidPublicIpRange).

(** [xrange(a, b)]: the integers from [a] to [b - 1]. *)
Definition xrange (a b : Z) : list Z :=
  (fix from (n : nat) (i : Z) : list Z :=
     match n with
     | O => []
     | S n' => i :: from n' (i + 1)
     end) (Z.to_nat (b - a)) a.

(** [ipLoop(ip_begin, ip_end, check_function)] (lines 183-204), for a
    [check_function] that updates a state of the caller and returns. The
    two calls of [intToIp] of lines 183-184 come first. *)
Definition ipLoop {St : Type} (ip_begin ip_end : Z)
    (check_function : Z -> Z -> St -> St) (st : St) : option (bool * St) :=
  match intToIp ip_begin with
  | None => None
  | Some char_ip_begin =>
      match intToIp ip_end with
      | None => None
      | Some char_ip_end =>
          let count := 0 in
          if ip_begin >? ip_end then Some (false, st)
          else
            let '(st', count') :=
              foldl (fun '(st, count) ip => (check_function ip count st, count + 1))
                    (st, count) (xrange ip_begin (ip_end + 1)) in
            Some (true, st')
      end
  end.

End Ip.

(** ** Vocabulary of the specification *)

(** The digit of one triad as the specification words it: 4 for a set read
    bit plus 2 for write plus 1 for execute. *)
Definition digit (r w x : bool) : Z :=
  (if r then 4 else 0) + (if w then 2 else 0) + (if x then 1 else 0).

(** An entry of kind [kind] (['d'] or ['-']) is observed in a listing: some
    line longer than ten characters starts with [kind]. *)
Definition observed (kind : ascii) (data : list string) : bool :=
  existsb (fun line => (10 <? String.length line)%nat && Rights.char_is line 0 kind)
          data.

(** The right at position [k] (0 for owner-read, ..., 8 for other-execute)
    is granted by some entry of kind [kind] of the listing. *)
Definition granted (kind : ascii) (k : nat) (data : list string) : bool :=
  existsb (fun line => (10 <? String.length line)%nat
                       && Rights.char_is line 0 kind
                       && Rights.grants line (S k))
          data.

(** Methods only add to the history of the connection. *)
Definition extends {server A} (m : M server A) : Prop :=
  forall ftp, exists delta : list (command * reply),
    history (snd (m ftp)) = history ftp ++ delta.

(** A dictionary literal [{name: value, ...}]. *)
Definition dict (items : list (string * tree)) : gmap string tree :=
  list_to_map items.

(** The commands a method issued, from the connection before and after. *)
Definition issued {server} (before after : ftp_instance server)
    (delta : list (command * reply)) : Prop :=
  history after = history before ++ delta.

(** The position, in the list [checkWriteAndDeleteAccess] returns, of the
    flag that reports on a command: can create dir, can delete dir, can
    upload file, can delete file. *)
Definition flag_of (c : command) : option nat :=
  match c with
  | MKD _ => Some 0%nat
  | RMD _ => Some 1%nat
  | STOR _ => Some 2%nat
  | DELE _ => Some 3%nat
  | _ => None
  end.

(** ** Vocabulary of the further properties *)

(** Every command a method issues satisfies [allowed]. *)
Definition issues_only {server A} (allowed : command -> Prop) (m : M server A)
    : Prop :=
  forall ftp, exists delta : list (command * reply),
    history (snd (m ftp)) = history ftp ++ delta
    /\ Forall (fun x => allowed (fst x)) delta.

(** The commands of navigation: listing names and changing directory. *)
Definition navigation (c : command) : Prop :=
  c = NLST \/ exists path, c = CWD path.

(** A report without ['+'] anywhere. *)
Inductive cut_free : tree -> Prop :=
  | cut_free_leaf : cut_free Leaf
  | cut_free_subtree (level : gmap string tree) :
      (forall name t, level !! name = Some t -> cut_free t) ->
      cut_free (Subtree level).

(** A line the loop of [getMaxRights] takes into account for [kind]. *)
Definition counted (kind : ascii) (line : string) : bool :=
  (10 <? String.length line)%nat && Rights.char_is line 0 kind.

(** An address lies in one of the ranges of a list. *)
Definition within (ranges : list (Z * Z)) (ip : Z) : Prop :=
  exists r, In r ranges /\ fst r <= ip <= snd r.

(** The ranges of a list are not empty, ascending and apart. *)
Fixpoint ascending (ranges : list (Z * Z)) : Prop :=
  match ranges with
  | [] => True
  | r :: rest =>
      fst r <= snd r
      /\ match rest with
         | [] => True
         | r' :: _ => snd r < fst r'
         end
      /\ ascending rest
  end.

(** Number of addresses of a list of ranges. *)
Definition addresses (ranges : list (Z * Z)) : Z :=
  foldr (fun r n => (snd r - fst r + 1) + n) 0 ranges.

(** ** Test inputs *)

(** A generator for [random.randrange(a, b)] that never repeats itself
    within [b - a] draws: the state counts the draws. *)
Definition counting_randrange (a b : Z) (g : Z) : Z * Z :=
  (a + g `mod` (b - a), g + 1).

Module Inputs.
Import MockFS.

(** /pub/sub/deep.txt and /readme.txt *)
Definition three_levels : node :=
  Folder true
    [("pub", Folder true [("sub", Folder true [("deep.txt", File)])]);
     ("readme.txt", File)].

(** Five files in the root. *)
Definition five_files : node :=
  Folder true
    [("a.txt", File); ("b.txt", File); ("c.txt", File); ("d.txt", File);
     ("e.txt", File)].

(** Five entries, two of them nested: /docs/a.txt, /docs/b.txt, /c.txt,
    /d.txt. *)
Definition five_entries : node :=
  Folder true
    [("docs", Folder true [("a.txt", File); ("b.txt", File)]);
     ("c.txt", File); ("d.txt", File)].

(** /private can be entered but not listed; /pub/file.txt is public. *)
Definition unlistable : node :=
  Folder true
    [("private", Folder false [("secret.txt", File)]);
     ("pub", Folder true [("file.txt", File)])].

(** The same tree with /private listable. *)
Definition all_listable : node :=
  Folder true
    [("private", Folder true [("secret.txt", File)]);
     ("pub", Folder true [("file.txt", File)])].

(** /pub/x.txt *)
Definition nested_file : node :=
  Folder true [("pub", Folder true [("x.txt", File)])].

End Inputs.

(** ** Proof automation *)

Create HintDb issued.

(** Runs the next command of the method under analysis, by cases on what
    the server answers. *)
Ltac answer :=
  match goal with
  | |- context [respond ?c ?s] =>
      let r := fresh "r" in
      let s' := fresh "s" in
      destruct (respond c s) as [[r|[]] s'] eqn:?; cbn
  end.

(** Decides a statement about the entry at position [i] of an explicit
    list of issued commands. *)
Ltac by_position i :=
  repeat (destruct i as [|i]; simplify_eq/=);
  try done;
  try (first
    [ exists 0%nat; eexists; split; [lia|reflexivity]
    | exists 1%nat; eexists; split; [lia|reflexivity]
    | exists 2%nat; eexists; split; [lia|reflexivity] ]).

(** * Properties *)

(** ** RightsCodec *)

Section Rights_facts.
Import Rights.

Lemma char_is_true line i c : char_is line i c = true <-> String.get i line = Some c.
Proof. unfold char_is. apply bool_decide_eq_true. Qed.

Lemma char_is_exclusive line i c c' :
  c <> c' -> char_is line i c = true -> char_is line i c' = false.
Proof.
  intros Hne Hc. apply char_is_true in Hc.
  apply bool_decide_eq_false. rewrite Hc. congruence.
Qed.

Lemma mark_valid line t i :
  is_valid_dir (mark line t i) = is_valid_dir t
  /\ is_valid_file (mark line t i) = is_valid_file t.
Proof.
  unfold mark. destruct (grants line i); [destruct (char_is line 0 "d")|]; auto.
Qed.

Lemma marks_valid line l : forall t,
  is_valid_dir (foldl (mark line) t l) = is_valid_dir t
  /\ is_valid_file (foldl (mark line) t l) = is_valid_file t.
Proof.
  induction l as [|i l IH]; intros t; simpl; [auto|].
  destruct (IH (mark line t i)) as [-> ->]. apply mark_valid.
Qed.

Lemma read_line_valid_dir t line :
  is_valid_dir (read_line t line)
  = is_valid_dir t || ((10 <? String.length line)%nat && char_is line 0 "d").
Proof.
  unfold read_line. destruct (10 <? String.length line)%nat;
    [|now rewrite orb_false_r].
  destruct (char_is line 0 "d") eqn:Hd, (char_is line 0 "-") eqn:Hf;
    cbv beta iota zeta delta [orb andb];
    rewrite ?(proj1 (marks_valid _ _ _)); cbn [is_valid_dir];
    destruct (is_valid_dir t); reflexivity.
Qed.

Lemma read_line_valid_file t line :
  is_valid_file (read_line t line)
  = is_valid_file t || ((10 <? String.length line)%nat && char_is line 0 "-").
Proof.
  unfold read_line. destruct (10 <? String.length line)%nat;
    [|now rewrite orb_false_r].
  destruct (char_is line 0 "-") eqn:Hf.
  - rewrite (char_is_exclusive line 0 "-" "d") by (done || discriminate).
    cbv beta iota zeta delta [orb andb].
    rewrite (proj2 (marks_valid _ _ _)); cbn [is_valid_file].
    destruct (is_valid_file t); reflexivity.
  - destruct (char_is line 0 "d"); cbv beta iota zeta delta [orb andb];
      rewrite ?(proj2 (marks_valid _ _ _)); cbn [is_valid_file];
      destruct (is_valid_file t); reflexivity.
Qed.

Lemma read_lines_valid data : forall t,
  is_valid_dir (foldl read_line t data) = is_valid_dir t || observed "d" data
  /\ is_valid_file (foldl read_line t data) = is_valid_file t || observed "-" data.
Proof.
  induction data as [|line data IH]; intros t; simpl.
  - now rewrite !orb_false_r.
  - destruct (IH (read_line t line)) as [-> ->].
    rewrite read_line_valid_dir, read_line_valid_file, !orb_assoc. done.
Qed.

Lemma to_number_digits result :
  to_number result
  = 100 * digit (slot result 0) (slot result 1) (slot result 2)
    + 10 * digit (slot result 3) (slot result 4) (slot result 5)
    + digit (slot result 6) (slot result 7) (slot result 8).
Proof.
  unfold to_number, digit.
  destruct (slot result 0), (slot result 1), (slot result 2),
    (slot result 3), (slot result 4), (slot result 5),
    (slot result 6), (slot result 7), (slot result 8); reflexivity.
Qed.

Lemma to_number_range result : 0 <= to_number result <= 777.
Proof.
  rewrite to_number_digits. unfold digit.
  destruct (slot result 0), (slot result 1), (slot result 2),
    (slot result 3), (slot result 4), (slot result 5),
    (slot result 6), (slot result 7), (slot result 8); lia.
Qed.

(** What [parseMaxRights] returns, by what was observed. *)
Lemma parseMaxRights_cases data :
  let t := foldl read_line initial data in
  parseMaxRights data
  = (if observed "d" data then to_number (result_dir t) else -1,
     if observed "-" data then to_number (result_file t) else -1).
Proof.
  unfold parseMaxRights. destruct data as [|line data]; [reflexivity|].
  cbv zeta. change (length (line :: data) <=? 0)%nat with false. cbv iota.
  destruct (read_lines_valid (line :: data) initial) as [-> ->].
  change (is_valid_dir initial) with false.
  change (is_valid_file initial) with false. rewrite !orb_false_l.
  destruct (observed "d" (line :: data)), (observed "-" (line :: data)); reflexivity.
Qed.

Lemma unobserved kind data :
  Forall (fun line => String.get 0 line <> Some kind) data ->
  observed kind data = false.
Proof.
  induction 1 as [|line data Hline _ IH]; simpl; [done|].
  rewrite IH, orb_false_r. apply andb_false_intro2.
  apply not_true_is_false. now rewrite char_is_true.
Qed.

(** Writing [True] into a table sets one slot, if there is such a slot. *)
Lemma slot_insert (result : list bool) (j k : nat) :
  slot (<[j := true]> result) k
  = slot result k || (bool_decide (j = k) && (k <? length result)%nat).
Proof.
  unfold slot. rewrite list_lookup_insert.
  destruct (decide (j = k)) as [->|Hjk].
  - rewrite (bool_decide_eq_true_2 (k = k)) by done. cbn [andb].
    destruct (Nat.ltb_spec k (length result)) as [Hk|Hk].
    + rewrite decide_True by done.
      rewrite (bool_decide_eq_true_2 (Some true = Some true)) by done.
      now rewrite orb_true_r.
    + rewrite decide_False by lia. now rewrite orb_false_r.
  - rewrite decide_False by tauto. rewrite (bool_decide_eq_false_2 (j = k)) by done.
    cbn [andb]. now rewrite orb_false_r.
Qed.

Lemma mark_length line t i :
  length (result_dir (mark line t i)) = length (result_dir t)
  /\ length (result_file (mark line t i)) = length (result_file t).
Proof.
  unfold mark. destruct (grants line i); [destruct (char_is line 0 "d")|];
    cbn; rewrite ?length_insert; auto.
Qed.

Lemma mark_slot line t i k :
  slot (result_dir (mark line t i)) k
  = slot (result_dir t) k
    || (char_is line 0 "d" && (k <? length (result_dir t))%nat
        && (grants line i && bool_decide ((i - 1)%nat = k)))
  /\ slot (result_file (mark line t i)) k
     = slot (result_file t) k
       || (negb (char_is line 0 "d") && (k <? length (result_file t))%nat
           && (grants line i && bool_decide ((i - 1)%nat = k))).
Proof.
  unfold mark. destruct (grants line i), (char_is line 0 "d"); cbn;
    rewrite ?slot_insert, ?andb_false_r, ?orb_false_r; split; try reflexivity;
    f_equal; apply andb_comm.
Qed.

Lemma marks_slot line l k : forall t,
  slot (result_dir (foldl (mark line) t l)) k
  = slot (result_dir t) k
    || (char_is line 0 "d" && (k <? length (result_dir t))%nat
        && existsb (fun i => grants line i && bool_decide ((i - 1)%nat = k)) l)
  /\ slot (result_file (foldl (mark line) t l)) k
     = slot (result_file t) k
       || (negb (char_is line 0 "d") && (k <? length (result_file t))%nat
           && existsb (fun i => grants line i && bool_decide ((i - 1)%nat = k)) l)
  /\ length (result_dir (foldl (mark line) t l)) = length (result_dir t)
  /\ length (result_file (foldl (mark line) t l)) = length (result_file t).
Proof.
  induction l as [|i l IH]; intros t; cbn [foldl existsb].
  - rewrite !andb_false_r, !orb_false_r. auto.
  - destruct (IH (mark line t i)) as (-> & -> & -> & ->).
    destruct (mark_slot line t i k) as [-> ->].
    destruct (mark_length line t i) as [-> ->].
    repeat split; rewrite <- !orb_assoc; f_equal;
      rewrite <- andb_orb_distrib_r; reflexivity.
Qed.

(** Over the nine positions of [range(1, 10)], slot [k] is written exactly
    by position [k + 1]. *)
Lemma positions_hit (g : nat -> bool) (k : nat) :
  (k < 9)%nat ->
  existsb (fun i => g i && bool_decide ((i - 1)%nat = k)) (seq 1 9) = g (S k).
Proof.
  intros Hk. do 9 (destruct k as [|k]; [cbn;
    rewrite ?andb_false_r, ?andb_true_r, ?orb_false_r, ?orb_false_l;
    reflexivity|]). lia.
Qed.

Lemma read_line_slot t line k :
  (k < 9)%nat -> length (result_dir t) = 9%nat -> length (result_file t) = 9%nat ->
  slot (result_dir (read_line t line)) k
  = slot (result_dir t) k
    || ((10 <? String.length line)%nat && char_is line 0 "d" && grants line (S k))
  /\ slot (result_file (read_line t line)) k
     = slot (result_file t) k
       || ((10 <? String.length line)%nat && char_is line 0 "-" && grants line (S k))
  /\ length (result_dir (read_line t line)) = 9%nat
  /\ length (result_file (read_line t line)) = 9%nat.
Proof.
  intros Hk Hdir Hfile.
  assert (Hlt : (k <? 9)%nat = true) by now apply Nat.ltb_lt.
  unfold read_line. destruct (10 <? String.length line)%nat; cbn [andb];
    [|rewrite !orb_false_r; auto].
  destruct (char_is line 0 "-") eqn:Hf.
  - rewrite (char_is_exclusive line 0 "-" "d") by (done || discriminate).
    cbn [orb andb]. cbv zeta.
    match goal with
    | |- context [foldl (mark line) ?t0 _] =>
        destruct (marks_slot line (seq 1 9) k t0) as (-> & -> & -> & ->)
    end.
    rewrite (char_is_exclusive line 0 "-" "d") by (done || discriminate).
    cbn [result_dir result_file negb andb]. rewrite Hfile, Hlt, positions_hit by done.
    rewrite !orb_false_r. auto.
  - destruct (char_is line 0 "d") eqn:Hd; cbn [orb andb]; cbv zeta;
      [|rewrite !orb_false_r; auto].
    match goal with
    | |- context [foldl (mark line) ?t0 _] =>
        destruct (marks_slot line (seq 1 9) k t0) as (-> & -> & -> & ->)
    end.
    rewrite Hd.
    cbn [result_dir result_file negb andb]. rewrite Hdir, Hlt, positions_hit by done.
    rewrite !orb_false_r. auto.
Qed.

Lemma read_lines_slot data k : forall t,
  (k < 9)%nat -> length (result_dir t) = 9%nat -> length (result_file t) = 9%nat ->
  slot (result_dir (foldl read_line t data)) k
  = slot (result_dir t) k || granted "d" k data
  /\ slot (result_file (foldl read_line t data)) k
     = slot (result_file t) k || granted "-" k data.
Proof.
  induction data as [|line data IH]; intros t Hk Hdir Hfile; cbn [foldl].
  - cbn. now rewrite !orb_false_r.
  - destruct (read_line_slot t line k Hk Hdir Hfile) as (Hd & Hf & Hdir' & Hfile').
    destruct (IH (read_line t line) Hk Hdir' Hfile') as [-> ->].
    rewrite Hd, Hf. cbn [granted existsb]. now rewrite !orb_assoc.
Qed.

(** The tables are unions: after the loop over [data], a slot of
    [result_dir] (of [result_file]) is set exactly when some directory
    (file) entry of the listing grants that right. *)
Lemma tables_are_unions data k :
  (k < 9)%nat ->
  let t := foldl read_line initial data in
  slot (result_dir t) k = granted "d" k data
  /\ slot (result_file t) k = granted "-" k data.
Proof.
  intros Hk t. subst t.
  destruct (read_lines_slot data k initial Hk eq_refl eq_refl) as [Hd Hf].
  split; [rewrite Hd|rewrite Hf]; destruct k as [|[|[|[|[|[|[|[|[|]]]]]]]]];
    (reflexivity || lia).
Qed.

End Rights_facts.

(** C9. A listing of one directory line whose permission string is
    "drwxr-xr-x" and one file line whose permission string is "-rw-r--r--",
    each followed by further text (at least one character [c], then
    anything), yields (755, 644); and the number of any table is
    owner*100 + group*10 + other, each digit being 4 for read plus 2 for
    write plus 1 for execute. *)
Theorem parseMaxRights_755_644 :
  (forall (c1 c2 : ascii) (rest1 rest2 : string),
      Rights.parseMaxRights
        ["drwxr-xr-x" +:+ String c1 rest1; "-rw-r--r--" +:+ String c2 rest2]
      = (755, 644))
  /\ Rights.parseMaxRights
       ["drwxr-xr-x 2 ftp ftp 4096 Jan 01 00:00 dirA";
        "-rw-r--r-- 1 ftp ftp 12 Jan 01 00:00 fileA"] = (755, 644)
  /\ (forall result : list bool,
        Rights.to_number result
        = 100 * digit (Rights.slot result 0) (Rights.slot result 1) (Rights.slot result 2)
          + 10 * digit (Rights.slot result 3) (Rights.slot result 4) (Rights.slot result 5)
          + digit (Rights.slot result 6) (Rights.slot result 7) (Rights.slot result 8)).
Proof.
  split; [|split].
  - intros c1 c2 rest1 rest2. vm_compute. reflexivity.
  - vm_compute. reflexivity.
  - apply to_number_digits.
Qed.

(** C4, as stated, fails: the two bare ten-character lines are not longer
    than ten characters, so both are skipped and the directory rights are
    -1; and with text after the permission strings the union of "rwx------"
    and "---r-xr-x" is "rwxr-xr-x", that is 755, not 775. *)
Lemma parseMaxRights_775_counterexample :
  Rights.parseMaxRights ["drwx------"; "d---r-xr-x"] = (-1, -1)
  /\ fst (Rights.parseMaxRights ["drwx------"; "d---r-xr-x"]) <> 775
  /\ fst (Rights.parseMaxRights
            ["drwx------ 2 ftp ftp 4096 Jan 01 00:00 a";
             "d---r-xr-x 2 ftp ftp 4096 Jan 01 00:00 b"]) <> 775.
Proof. vm_compute. repeat split; discriminate. Qed.

(** C4, amended. Two directory lines whose permission strings are
    "drwx------" and "d---r-xr-x", each followed by at least one more
    character, yield the directory rights 755 (and the file rights -1): the
    union of the bits of both entries, where the first line alone yields 700
    and the second alone 55. In general a slot of a table is set exactly
    when some entry of that kind in the listing grants the right. *)
Theorem parseMaxRights_union_755 (c1 c2 : ascii) (rest1 rest2 : string) :
  let line1 := "drwx------" +:+ String c1 rest1 in
  let line2 := "d---r-xr-x" +:+ String c2 rest2 in
  Rights.parseMaxRights [line1; line2] = (755, -1)
  /\ Rights.parseMaxRights [line1] = (700, -1)
  /\ Rights.parseMaxRights [line2] = (55, -1)
  /\ (forall (data : list string) (k : nat), (k < 9)%nat ->
        let t := foldl Rights.read_line Rights.initial data in
        Rights.slot (Rights.result_dir t) k = granted "d" k data
        /\ Rights.slot (Rights.result_file t) k = granted "-" k data).
Proof.
  cbv zeta. split; [|split; [|split]].
  - vm_compute. reflexivity.
  - vm_compute. reflexivity.
  - vm_compute. reflexivity.
  - intros data k Hk. apply tables_are_unions, Hk.
Qed.

(** Witness of [parseMaxRights_union_755]: the two lines with names, and
    the owner-read slot of their listing. *)
Lemma parseMaxRights_union_755_witness :
  let data := ["drwx------ 2 ftp ftp 4096 Jan 01 00:00 a";
               "d---r-xr-x 2 ftp ftp 4096 Jan 01 00:00 b"] in
  Rights.parseMaxRights data = (755, -1)
  /\ Rights.slot (Rights.result_dir (foldl Rights.read_line Rights.initial data)) 0
     = granted "d" 0 data.
Proof.
  destruct (parseMaxRights_union_755 " " " " "2 ftp ftp 4096 Jan 01 00:00 a"
              "2 ftp ftp 4096 Jan 01 00:00 b") as (Hboth & _ & _ & Hunion).
  split; [exact Hboth|]. apply (Hunion _ 0%nat). lia.
Defined.

(** ** PermissionProbe *)

Section Probe_facts.
Context `{FTP server}.
Implicit Types ftp : ftp_instance server.

Lemma issued_one ftp s (x : command * reply) :
  issued ftp (Connection s (history ftp ++ [x])) [x].
Proof. reflexivity. Qed.

Lemma issued_two ftp s (x y : command * reply) :
  issued ftp (Connection s ((history ftp ++ [x]) ++ [y])) [x; y].
Proof. unfold issued. cbn. now rewrite <- !app_assoc. Qed.

Lemma issued_three ftp s (x y z : command * reply) :
  issued ftp (Connection s (((history ftp ++ [x]) ++ [y]) ++ [z])) [x; y; z].
Proof. unfold issued. cbn. now rewrite <- !app_assoc. Qed.

Lemma issued_four ftp s (x y z u : command * reply) :
  issued ftp (Connection s ((((history ftp ++ [x]) ++ [y]) ++ [z]) ++ [u]))
         [x; y; z; u].
Proof. unfold issued. cbn. now rewrite <- !app_assoc. Qed.

End Probe_facts.

#[local] Hint Resolve issued_one issued_two issued_three issued_four : issued.

Section Probe_claims.
Context `{FTP server}.
Implicit Types ftp : ftp_instance server.

(** C6. Whatever the server answers, a delete command ([RMD], [DELE]) is
    issued only after the create command of the same name ([MKD], [STOR])
    was answered with success; a flag of the result is true exactly when its
    command was issued and succeeded, so a delete flag is true only if its
    create flag is; and when [MKD] and [STOR] are both refused with
    [error_perm], the result is four times false and these two commands are
    the only ones issued. *)
Theorem probe_deletes_after_creates ftp (dir_name filename : string) :
  let '(out, ftp') := checkWriteAndDeleteAccess dir_name filename ftp in
  exists delta, issued ftp ftp' delta
  /\ (forall i name r, delta !! i = Some (RMD name, r) ->
        exists j lines, (j < i)%nat /\ delta !! j = Some (MKD name, Ok lines))
  /\ (forall i name r, delta !! i = Some (DELE name, r) ->
        exists j lines, (j < i)%nat /\ delta !! j = Some (STOR name, Ok lines))
  /\ (forall flags, out = Returns flags ->
        exists c d u f, flags = [c; d; u; f]
        /\ (d = true -> c = true) /\ (f = true -> u = true)
        /\ (c = true <-> exists i lines, delta !! i = Some (MKD dir_name, Ok lines))
        /\ (d = true <-> exists i lines, delta !! i = Some (RMD dir_name, Ok lines))
        /\ (u = true <-> exists i lines, delta !! i = Some (STOR filename, Ok lines))
        /\ (f = true <-> exists i lines, delta !! i = Some (DELE filename, Ok lines)))
  /\ (forall i j, delta !! i = Some (MKD dir_name, Err error_perm) ->
        delta !! j = Some (STOR filename, Err error_perm) ->
        out = Returns [false; false; false; false]
        /\ delta = [(MKD dir_name, Err error_perm); (STOR filename, Err error_perm)]).
Proof.
  unfold checkWriteAndDeleteAccess, bind, try_except_else, call, ret. cbn.
  repeat answer;
    (eexists; split; [eauto with issued|]);
    (split; [intros i name' r' Hi; by_position i|]);
    (split; [intros i name' r' Hi; by_position i|]);
    (split; [|intros i j Hi Hj; by_position i; by_position j]);
    intros flags Hout; try discriminate Hout;
    injection Hout as <-; do 4 eexists; (split; [reflexivity|]);
    repeat split; try done;
    try (intros (i & lines & Hi); by_position i);
    intros _;
    first [ by exists 0%nat; eexists
          | by exists 1%nat; eexists
          | by exists 2%nat; eexists
          | by exists 3%nat; eexists ].
Qed.

(** C7. Whatever the server answers: an answer [error_perm] to any of the
    four commands leaves the flag of that command false in the result and
    does not stop the probe (after a refused [MKD] or [RMD] the upload is
    still attempted, and [error_perm] never leaves the method); any other
    exception is the last thing that happens and leaves
    [checkWriteAndDeleteAccess] as it is, to the caller. *)
Theorem probe_absorbs_error_perm_only ftp (dir_name filename : string) :
  let '(out, ftp') := checkWriteAndDeleteAccess dir_name filename ftp in
  exists delta, issued ftp ftp' delta
  /\ (forall i c flags k, delta !! i = Some (c, Err error_perm) ->
        out = Returns flags -> flag_of c = Some k -> flags !! k = Some false)
  /\ (forall i c, delta !! i = Some (c, Err error_perm) ->
        c = MKD dir_name \/ c = RMD dir_name ->
        exists r, delta !! S i = Some (STOR filename, r))
  /\ (forall i c e, delta !! i = Some (c, Err e) -> e <> error_perm ->
        out = Raises e /\ length delta = S i)
  /\ (forall e, out = Raises e ->
        e <> error_perm /\ exists c, last delta = Some (c, Err e))
  /\ out <> OutOfFuel.
Proof.
  unfold checkWriteAndDeleteAccess, bind, try_except_else, call, ret. cbn.
  repeat answer;
    (eexists; split; [eauto with issued|]);
    (split; [intros i c flags k Hi Hout Hk; try discriminate Hout;
             injection Hout as <-; by_position i|]);
    (split; [intros i c Hi Hc; by_position i;
             destruct Hc; simplify_eq; eauto|]);
    (split; [intros i c e Hi He; by_position i|]);
    (split; [|discriminate]);
    intros e Hout; try discriminate Hout;
    injection Hout as <-; (split; [discriminate|]); eexists; reflexivity.
Qed.

(** C8. After the answer [r] of the server to [LIST]: a refusal
    ([error_perm]) makes [getMaxRights] return (-1, -1); a listing [data]
    makes it return a pair whose first component is -1 exactly when no
    directory entry is observed in [data] and whose second component is -1
    exactly when no file entry is, which is (-1, -1) when [data] is empty
    and when no line of [data] starts with 'd' or '-'. *)
Theorem getMaxRights_minus_one ftp (r : reply) (s' : server) :
  respond LIST (server_state ftp) = (r, s') ->
  let ftp' := Connection s' (history ftp ++ [(LIST, r)]) in
  (r = Err error_perm -> getMaxRights ftp = (Returns (-1, -1), ftp'))
  /\ (forall data, r = Ok data ->
        exists rights_dir rights_file,
          getMaxRights ftp = (Returns (rights_dir, rights_file), ftp')
          /\ (rights_dir = -1 <-> observed "d" data = false)
          /\ (rights_file = -1 <-> observed "-" data = false)
          /\ (data = [] -> rights_dir = -1 /\ rights_file = -1)
          /\ (Forall (fun line => String.get 0 line <> Some "d"%char
                                  /\ String.get 0 line <> Some "-"%char) data ->
              rights_dir = -1 /\ rights_file = -1)).
Proof.
  intros Hr ftp'. unfold getMaxRights, try_except_else, call, ret.
  rewrite Hr. split.
  - intros ->. reflexivity.
  - intros data ->. cbn.
    pose proof (parseMaxRights_cases data) as Hcases. cbv zeta in Hcases.
    pose proof (to_number_range
                  (Rights.result_dir (foldl Rights.read_line Rights.initial data))).
    pose proof (to_number_range
                  (Rights.result_file (foldl Rights.read_line Rights.initial data))).
    do 2 eexists. split; [rewrite Hcases; reflexivity|].
    assert (Hun : forall kind,
               Forall (fun line => String.get 0 line <> Some "d"%char
                                   /\ String.get 0 line <> Some "-"%char) data ->
               kind = "d"%char \/ kind = "-"%char -> observed kind data = false).
    { intros kind Hall Hkind. apply unobserved.
      eapply Forall_impl; [exact Hall|]. cbn. intros line [Hd Hf].
      destruct Hkind; subst; assumption. }
    split; [|split; [|split]].
    + destruct (observed "d" data); split; (lia || done).
    + destruct (observed "-" data); split; (lia || done).
    + intros ->. split; reflexivity.
    + intros Hall. rewrite (Hun "d"%char), (Hun "-"%char) by auto.
      split; reflexivity.
Qed.

End Probe_claims.

(** Witness of [getMaxRights_minus_one]: a listing of one symbolic link. *)
Lemma getMaxRights_minus_one_witness :
  getMaxRights
    (Script.connect [Ok ["lrwxrwxrwx 1 ftp ftp 4 Jan 01 00:00 link -> dirA"]])
  = (Returns (-1, -1),
     Connection [] [(LIST, Ok ["lrwxrwxrwx 1 ftp ftp 4 Jan 01 00:00 link -> dirA"])]).
Proof.
  destruct (getMaxRights_minus_one
              (H := Script.server)
              (Script.connect [Ok ["lrwxrwxrwx 1 ftp ftp 4 Jan 01 00:00 link -> dirA"]])
              (Ok ["lrwxrwxrwx 1 ftp ftp 4 Jan 01 00:00 link -> dirA"]) []
              eq_refl) as [_ Hlisting].
  destruct (Hlisting _ eq_refl) as (rights_dir & rights_file & -> & _ & _ & _ & Hlinks).
  destruct Hlinks as [-> ->]; [|reflexivity].
  repeat constructor; discriminate.
Defined.

(** Witness of [probe_deletes_after_creates]: both creations refused. *)
Lemma probe_deletes_after_creates_witness :
  let ftp := Script.connect [Err error_perm; Err error_perm] in
  fst (checkWriteAndDeleteAccess "d" "f" ftp) = Returns [false; false; false; false]
  /\ history (snd (checkWriteAndDeleteAccess "d" "f" ftp))
     = [(MKD "d", Err error_perm); (STOR "f", Err error_perm)].
Proof.
  cbv zeta.
  pose proof (probe_deletes_after_creates (H := Script.server)
                (Script.connect [Err error_perm; Err error_perm]) "d" "f") as Hprobe.
  destruct (checkWriteAndDeleteAccess _ _ _) as [out ftp'] eqn:Hrun.
  destruct Hprobe as (delta & Hissued & _ & _ & _ & Hrefused).
  injection Hrun as <- <-. unfold issued in Hissued. cbn in Hissued.
  subst delta. destruct (Hrefused 0%nat 1%nat eq_refl eq_refl) as [Hout _].
  split; [exact Hout|reflexivity].
Defined.

(** Witness of [probe_absorbs_error_perm_only]: the removal is refused, then
    the upload fails with a temporary error. *)
Lemma probe_absorbs_error_perm_only_witness :
  let ftp := Script.connect [Ok []; Err error_perm; Err error_temp; Ok []] in
  fst (checkWriteAndDeleteAccess "d" "f" ftp) = Raises error_temp
  /\ exists r, history (snd (checkWriteAndDeleteAccess "d" "f" ftp)) !! 2%nat
               = Some (STOR "f", r).
Proof.
  cbv zeta.
  pose proof (probe_absorbs_error_perm_only (H := Script.server)
                (Script.connect [Ok []; Err error_perm; Err error_temp; Ok []])
                "d" "f") as Hprobe.
  destruct (checkWriteAndDeleteAccess _ _ _) as [out ftp'] eqn:Hrun.
  destruct Hprobe as (delta & Hissued & _ & Hnext & Hraised & _).
  injection Hrun as <- <-. unfold issued in Hissued. cbn in Hissued.
  subst delta. split.
  - apply (Hraised 2%nat (STOR "f") error_temp eq_refl). discriminate.
  - apply (Hnext 1%nat (RMD "d") eq_refl). right. reflexivity.
Defined.

(** Runs of the probe on scripted servers. *)
Example probe_all_refused :
  checkWriteAndDeleteAccess "d" "f" (Script.connect [Err error_perm; Err error_perm])
  = (Returns [false; false; false; false],
     Connection [] [(MKD "d", Err error_perm); (STOR "f", Err error_perm)]).
Proof. reflexivity. Qed.

Example probe_all_accepted :
  checkWriteAndDeleteAccess "d" "f" (Script.connect [Ok []; Ok []; Ok []; Ok []])
  = (Returns [true; true; true; true],
     Connection [] [(MKD "d", Ok []); (RMD "d", Ok []);
                    (STOR "f", Ok []); (DELE "f", Ok [])]).
Proof. reflexivity. Qed.

Example probe_temporary_failure :
  checkWriteAndDeleteAccess "d" "f"
    (Script.connect [Ok []; Err error_perm; Err error_temp; Ok []])
  = (Raises error_temp,
     Connection [Ok []] [(MKD "d", Ok []); (RMD "d", Err error_perm);
                         (STOR "f", Err error_temp)]).
Proof. reflexivity. Qed.

(** ** Default names of the probe *)

Section Defaults_claims.
Context {rng : Type} (randrange : Z -> Z -> rng -> Z * rng).
Context `{FTP server}.

(** The commands of a probe carry the names it was called with. *)
Lemma probe_names (ftp : ftp_instance server) (dir_name filename : string) :
  let ftp' := snd (checkWriteAndDeleteAccess dir_name filename ftp) in
  exists r rest, issued ftp ftp' ((MKD dir_name, r) :: rest)
  /\ (forall i name r', rest !! i = Some (STOR name, r') -> name = filename)
  /\ (forall i name r', rest !! i = Some (MKD name, r') -> False).
Proof.
  unfold checkWriteAndDeleteAccess, bind, try_except_else, call, ret. cbn.
  repeat answer;
    (do 2 eexists; split; [eauto with issued|]);
    split; intros i name' r' Hi; by_position i.
Qed.

(** C10 fails on the code. The names are drawn when the [def] statement is
    executed; whatever the generator and its state then, and whatever is
    drawn later, any two calls that omit the names, on any connections,
    both start with [MKD] of the one stored directory name and upload under
    the one stored file name. *)
Theorem default_names_shared (g : rng) (ftp1 ftp2 : ftp_instance server) :
  let d := fst (def_checkWriteAndDeleteAccess randrange g) in
  let after1 := snd (checkWriteAndDeleteAccess_call d None None ftp1) in
  let after2 := snd (checkWriteAndDeleteAccess_call d None None ftp2) in
  exists r1 rest1 r2 rest2,
    issued ftp1 after1 ((MKD (dir_name_default d), r1) :: rest1)
    /\ issued ftp2 after2 ((MKD (dir_name_default d), r2) :: rest2)
    /\ (forall i name r, rest1 !! i = Some (STOR name, r) -> name = filename_default d)
    /\ (forall i name r, rest2 !! i = Some (STOR name, r) -> name = filename_default d).
Proof.
  intros d after1 after2.
  destruct (probe_names ftp1 (dir_name_default d) (filename_default d))
    as (r1 & rest1 & Hissued1 & Hstor1 & _).
  destruct (probe_names ftp2 (dir_name_default d) (filename_default d))
    as (r2 & rest2 & Hissued2 & Hstor2 & _).
  exists r1, rest1, r2, rest2. auto.
Qed.

End Defaults_claims.

(** Two probes in a row on one connection, names omitted, with a generator
    that would give a new number at every draw: both use the same names. *)
Example default_names_twice :
  let d := fst (def_checkWriteAndDeleteAccess counting_randrange 0) in
  let ftp := Script.connect [Ok []; Ok []; Ok []; Ok []; Err error_perm; Err error_perm] in
  let ftp1 := snd (checkWriteAndDeleteAccess_call d None None ftp) in
  let ftp2 := snd (checkWriteAndDeleteAccess_call d None None ftp1) in
  history ftp2
  = [(MKD "folder_to_delete_100000000", Ok []);
     (RMD "folder_to_delete_100000000", Ok []);
     (STOR "file_to_delete_100000001", Ok []);
     (DELE "file_to_delete_100000001", Ok []);
     (MKD "folder_to_delete_100000000", Err error_perm);
     (STOR "file_to_delete_100000001", Err error_perm)].
Proof. vm_compute. reflexivity. Qed.

(** ** DirectoryTreeScanner *)

Section Scanner_facts.
Context `{FTP server}.
Implicit Types ftp : ftp_instance server.

Lemma for_each_ext {A B} (f g : B -> A -> M server B) :
  (forall b a ftp, f b a ftp = g b a ftp) ->
  forall l b ftp, for_each f b l ftp = for_each g b l ftp.
Proof.
  intros Hfg l. induction l as [|a l IH]; intros b ftp; cbn; [reflexivity|].
  unfold bind. rewrite Hfg. destruct (g b a ftp) as [[b'| |] ftp']; auto.
Qed.

Lemma visit_ext (recurse recurse' : M server tree) :
  (forall ftp, recurse ftp = recurse' ftp) ->
  forall optimized level entry ftp,
    visit recurse optimized level entry ftp
    = visit recurse' optimized level entry ftp.
Proof.
  intros Hrec optimized level entry ftp.
  unfold visit, try_except, try_except_else, bind.
  destruct (_ || _); [|reflexivity].
  destruct (call (CWD entry) ftp) as [[?| |] ftp1]; try reflexivity.
  now rewrite Hrec.
Qed.

(** The test of line 62 never fires at depth 0. *)
Lemma depth_zero_within (max_depth : Z) :
  (max_depth >=? 0) && (0 >? max_depth) = false.
Proof. destruct (Z.geb_spec max_depth 0), (Z.gtb_spec 0 max_depth); (done || lia). Qed.

(** Every call of [__getContent] runs at depth 0, the top one and, by line
    81, the recursive ones; so [max_depth] has no effect on a scan. *)
Lemma max_depth_ignored (fuel : nat) :
  forall max_depth max_depth' max_files optimized count ftp,
    __getContent fuel max_depth max_files optimized count 0 ftp
    = __getContent fuel max_depth' max_files optimized count 0 ftp.
Proof.
  induction fuel as [|fuel IH]; intros; [reflexivity|]. cbn [__getContent].
  rewrite !depth_zero_within.
  destruct (_ && _); [reflexivity|].
  unfold bind. destruct (call NLST ftp) as [[paths| |] ftp1]; try reflexivity.
  erewrite for_each_ext; [reflexivity|].
  intros level entry ftp2. apply visit_ext. intros ftp3. apply IH.
Qed.

Lemma issued_trans ftp1 ftp2 ftp3 delta delta' :
  issued ftp1 ftp2 delta -> issued ftp2 ftp3 delta' ->
  issued ftp1 ftp3 (delta ++ delta').
Proof. unfold issued. intros H1 H2. now rewrite H2, H1, app_assoc. Qed.

Lemma extends_ret {A} (a : A) : extends (server := server) (ret a).
Proof. intros ftp. exists []. unfold issued. cbn. now rewrite app_nil_r. Qed.

Lemma extends_call (c : command) : extends (call c).
Proof.
  intros ftp. unfold call.
  destruct (respond c (server_state ftp)) as [[lines|e] s']; eexists; reflexivity.
Qed.

Lemma extends_try_except_else {A B} (body : M server A) caught
    (handler : M server B) (orelse : A -> M server B) :
  extends body -> extends handler -> (forall a, extends (orelse a)) ->
  extends (try_except_else body caught handler orelse).
Proof.
  intros Hbody Hhandler Horelse ftp. unfold try_except_else.
  destruct (Hbody ftp) as [delta Hdelta].
  destruct (body ftp) as [[a|e|] ftp1]; cbn in Hdelta.
  - destruct (Horelse a ftp1) as [delta' Hdelta'].
    eexists. eapply issued_trans; eassumption.
  - destruct (caught e); [|eauto].
    destruct (Hhandler ftp1) as [delta' Hdelta'].
    eexists. eapply issued_trans; eassumption.
  - eauto.
Qed.

Lemma extends_bind {A B} (m : M server A) (k : A -> M server B) :
  extends m -> (forall a, extends (k a)) -> extends (bind m k).
Proof.
  intros Hm Hk ftp. unfold bind.
  destruct (Hm ftp) as [delta Hdelta].
  destruct (m ftp) as [[a|e|] ftp1]; cbn in Hdelta; eauto.
  destruct (Hk a ftp1) as [delta' Hdelta'].
  eexists. eapply issued_trans; eassumption.
Qed.

Lemma extends_for_each {A B} (body : B -> A -> M server B) :
  (forall b a, extends (body b a)) ->
  forall l b, extends (for_each body b l).
Proof.
  intros Hbody l. induction l as [|a l IH]; intros b; cbn.
  - apply extends_ret.
  - apply extends_bind; auto.
Qed.

Lemma extends_visit (recurse : M server tree) optimized level entry :
  extends recurse -> extends (visit recurse optimized level entry).
Proof.
  intros Hrec. unfold visit, try_except.
  apply extends_try_except_else; auto using extends_ret.
  destruct (_ || _); [|apply extends_ret].
  repeat (apply extends_bind; [auto using extends_call|intros ?]).
  apply extends_ret.
Qed.

Lemma extends_getContent (fuel : nat) :
  forall max_depth max_files optimized count depth,
    extends (__getContent fuel max_depth max_files optimized count depth).
Proof.
  induction fuel as [|fuel IH]; intros; cbn [__getContent].
  - intros ftp. exists []. unfold issued. cbn. now rewrite app_nil_r.
  - destruct (_ && _); [apply extends_ret|].
    destruct (_ && _); [apply extends_ret|].
    apply extends_bind; [apply extends_call|intros paths].
    apply extends_bind; [|intros; apply extends_ret].
    apply extends_for_each. intros level entry. apply extends_visit, IH.
Qed.

(** The rule of line 79, for the value [optimized] is bound to in the call
    at hand: when the test holds, [cwd(entry)] is the first command issued
    for the entry; when it fails, no command is issued and the entry is
    recorded as ['']. *)
Lemma visit_rule fuel max_depth max_files optimized' count depth
    optimized level entry ftp :
  let name := entry_name entry in
  let recurse := __getContent fuel max_depth max_files optimized' count depth in
  let '(out, ftp') := visit recurse optimized level entry ftp in
  if (find "." name <=? 0) || negb (truthy optimized) then
    exists r rest, issued ftp ftp' ((CWD entry, r) :: rest)
  else
    ftp' = ftp /\ out = Returns (<[name := Leaf]> level).
Proof.
  cbv zeta. unfold visit, try_except, try_except_else.
  destruct (_ || _); [|split; reflexivity].
  unfold bind at 1.
  unfold call at 1.
  destruct (respond (CWD entry) (server_state ftp)) as [[lines|e] s'].
  - match goal with
    | |- context [bind ?m ?k ?x] =>
        assert (Hrest : extends (bind m k))
          by (repeat (apply extends_bind;
                      [auto using extends_call, extends_getContent|intros ?]);
              apply extends_ret);
        destruct (Hrest x) as [delta Hdelta];
        destruct (bind m k x) as [[level'|e'|] ftp1]
    end; cbn in Hdelta |- *; try destruct (ftplib_errors e'); cbn;
      unfold issued in *; cbn in *; rewrite Hdelta, <- app_assoc; eauto.
  - destruct (ftplib_errors e); cbn; eexists _, []; reflexivity.
Qed.

End Scanner_facts.

(** C1 fails on the code. With [max_depth = 0] the folder /pub of the root
    is not cut: it is entered and listed, and so is /pub/sub below it, since
    the recursive call of line 81 leaves [depth] at 0; the result is the one
    of the unbounded scan. For every server, [max_depth] changes nothing. *)
Theorem max_depth_not_enforced :
  getContent 4 0 (-1) (MockFS.connect Inputs.three_levels)
  = (Returns
       (Subtree (dict
          [("pub", Subtree (dict
              [("sub", Subtree (dict [("deep.txt", Leaf)]))]));
           ("readme.txt", Leaf)])),
     Connection (MockFS.State Inputs.three_levels [])
       [(NLST, Ok ["pub"; "readme.txt"]);
        (CWD "pub", Ok []); (NLST, Ok ["sub"]);
        (CWD "sub", Ok []); (NLST, Ok ["deep.txt"]);
        (CWD "..", Ok []); (CWD "..", Ok [])])
  /\ getContent 4 0 (-1) (MockFS.connect Inputs.three_levels)
     = getContent 4 (-1) (-1) (MockFS.connect Inputs.three_levels)
  /\ (forall server (H : FTP server) fuel max_depth max_depth' max_files
             (ftp : ftp_instance server),
        getContent fuel max_depth max_files ftp
        = getContent fuel max_depth' max_files ftp).
Proof.
  split; [vm_compute; reflexivity|]. split; [vm_compute; reflexivity|].
  intros. apply max_depth_ignored.
Qed.

(** C2 fails on the code. With [max_files = 2]: five files in the root are
    all reported, none as ['+'], since [count] is increased once per call of
    [__getContent] and not per entry; and of the five entries /docs/a.txt,
    /docs/b.txt, /c.txt, /d.txt and /docs, three are reported ([docs] as
    ['+'], after it was entered) and the two nested ones do not appear.
    With [max_files = 3] nothing is cut, since [count] is 2 in every
    recursive call. *)
Theorem max_files_not_a_global_count :
  getContent 4 (-1) 2 (MockFS.connect Inputs.five_files)
  = (Returns
       (Subtree (dict
          [("a.txt", Leaf); ("b.txt", Leaf); ("c.txt", Leaf); ("d.txt", Leaf);
           ("e.txt", Leaf)])),
     Connection (MockFS.State Inputs.five_files [])
       [(NLST, Ok ["a.txt"; "b.txt"; "c.txt"; "d.txt"; "e.txt"])])
  /\ getContent 4 (-1) 2 (MockFS.connect Inputs.five_entries)
     = (Returns
          (Subtree (dict
             [("docs", Truncated); ("c.txt", Leaf); ("d.txt", Leaf)])),
        Connection (MockFS.State Inputs.five_entries [])
          [(NLST, Ok ["docs"; "c.txt"; "d.txt"]);
           (CWD "docs", Ok []); (CWD "..", Ok [])])
  /\ fst (getContent 4 (-1) 3 (MockFS.connect Inputs.five_entries))
     = Returns
         (Subtree (dict
            [("docs", Subtree (dict [("a.txt", Leaf); ("b.txt", Leaf)]));
             ("c.txt", Leaf); ("d.txt", Leaf)])).
Proof. vm_compute. repeat split; reflexivity. Qed.

(** C3 fails on the code. The folder /private can be entered but its
    listing is refused: the exception leaves the recursive call, the handler
    of line 85 records ['private': ''] and line 82 is skipped, so the
    working directory, / before the descent, is /private after it. The
    sibling /pub is then looked for in /private and reported as [''], where
    the same tree with /private listable gives its content; the scan ends
    in /private. *)
Theorem cwd_not_restored_after_error :
  let ftp := MockFS.connect Inputs.unlistable in
  let descent :=
    visit (__getContent 3 (-1) (-1) (PyInt (-1)) 1 0) (PyBool true) ∅ "private" ftp in
  MockFS.cwd (server_state ftp) = []
  /\ fst descent = Returns (dict [("private", Leaf)])
  /\ MockFS.cwd (server_state (snd descent)) = ["private"]
  /\ getContent 4 (-1) (-1) ftp
     = (Returns (Subtree (dict [("private", Leaf); ("pub", Leaf)])),
        Connection (MockFS.State Inputs.unlistable ["private"])
          [(NLST, Ok ["private"; "pub"]);
           (CWD "private", Ok []); (NLST, Err error_perm);
           (CWD "pub", Err error_perm)])
  /\ getContent 4 (-1) (-1) (MockFS.connect Inputs.all_listable)
     = (Returns
          (Subtree (dict
             [("private", Subtree (dict [("secret.txt", Leaf)]));
              ("pub", Subtree (dict [("file.txt", Leaf)]))])),
        Connection (MockFS.State Inputs.all_listable [])
          [(NLST, Ok ["private"; "pub"]);
           (CWD "private", Ok []); (NLST, Ok ["secret.txt"]); (CWD "..", Ok []);
           (CWD "pub", Ok []); (NLST, Ok ["file.txt"]); (CWD "..", Ok [])]).
Proof. vm_compute. repeat split; reflexivity. Qed.

(** C5 fails on the code. In a scan started by [getContent], hence with
    [optimized = True], and with [max_files = 5], the name "x.txt" found in
    /pub has its first dot at position 1 and yet [cwd("x.txt")] is issued:
    line 81 binds [optimized] to [count], which is 0 in the call for /pub. *)
Theorem dotted_name_gets_cwd :
  find "." "x.txt" = 1
  /\ getContent 4 (-1) 5 (MockFS.connect Inputs.nested_file)
     = (Returns (Subtree (dict [("pub", Subtree (dict [("x.txt", Leaf)]))])),
        Connection (MockFS.State Inputs.nested_file [])
          [(NLST, Ok ["pub"]);
           (CWD "pub", Ok []); (NLST, Ok ["x.txt"]);
           (CWD "x.txt", Err error_perm);
           (CWD "..", Ok [])]).
Proof. vm_compute. split; reflexivity. Qed.

(** ** The working directory on servers that list every folder *)

Module MockFS_facts.
Import MockFS.

Lemma child_listable name listable content x :
  listable_everywhere (Folder listable content) = true ->
  child name content = Some x ->
  listable_everywhere x = true /\ (height x < height (Folder listable content))%nat.
Proof.
  cbn. intros [_ Hall]%andb_prop. revert Hall.
  induction content as [|[n y] content IH]; cbn; [discriminate|].
  intros [Hy Hall]%andb_prop. case_bool_decide.
  - intros [= ->]. split; [done|lia].
  - intros Hx. destruct (IH Hall Hx). split; [done|lia].
Qed.

Lemma at_path_snoc n path name :
  at_path n (path ++ [name])
  = match at_path n path with
    | Some (Folder _ content) => child name content
    | _ => None
    end.
Proof.
  revert n. induction path as [|p path IH]; intros n; cbn.
  - destruct n as [|l content]; [reflexivity|]. now destruct (child name content).
  - destruct n as [|l content]; [reflexivity|].
    destruct (child p content); [apply IH|reflexivity].
Qed.

Lemma at_path_listable path : forall n x,
  listable_everywhere n = true -> at_path n path = Some x ->
  listable_everywhere x = true.
Proof.
  induction path as [|p path IH]; intros n x Hn; cbn.
  - now intros [= <-].
  - destruct n as [|l content]; [discriminate|].
    destruct (child p content) as [y|] eqn:Hy; [|discriminate].
    apply IH. eapply child_listable; eassumption.
Qed.

Section Loop.
Variables (fs : node) (wd : list string) (listable : bool)
          (content : list (string * node)).
Hypothesis Hroot : listable_everywhere fs = true.
Hypothesis Hcwd : at_path fs wd = Some (Folder listable content).

(** The recursive call, in any subfolder [x] of the working directory. *)
Variables (recurse : M state tree) (fuel : nat).
Hypothesis Hrecurse : forall name x,
  child name content = Some x -> is_folder x = true ->
  restoring (fuel <= height x)%nat recurse (State fs (wd ++ [name])).

Lemma visit_restoring optimized level entry :
  entry <> ".." ->
  restoring (S fuel <= height (Folder listable content))%nat
            (visit recurse optimized level entry) (State fs wd).
Proof.
  intros Hentry h.
  unfold visit, try_except, try_except_else, bind, call, ret.
  destruct (_ || _); [|reflexivity].
  cbn [respond server server_state MockFS.cwd MockFS.root].
  rewrite bool_decide_eq_false_2 by done.
  rewrite at_path_snoc, Hcwd.
  destruct (child (entry) content) as [[|l' content']|] eqn:Hchild;
    [reflexivity| |reflexivity].
  specialize (Hrecurse entry _ Hchild eq_refl
                (h ++ [(CWD entry, Ok [])])).
  cbn [history server_state] in *.
  destruct (recurse _) as [[sub|e|] ftp1]; [|done|].
  - rewrite Hrecurse. cbn. now rewrite removelast_last.
  - destruct (child_listable entry listable content _ 
                (at_path_listable _ _ _ Hroot Hcwd) Hchild). lia.
Qed.

Lemma for_each_restoring optimized entries : forall level,
  Forall (fun entry => entry <> "..") entries ->
  restoring (S fuel <= height (Folder listable content))%nat
            (for_each (visit recurse optimized) level entries) (State fs wd).
Proof.
  induction entries as [|entry entries IH]; intros level Hentries h; cbn.
  - reflexivity.
  - inversion_clear Hentries as [|? ? Hentry Hrest].
    unfold bind. pose proof (visit_restoring optimized level entry Hentry h) as Hv.
    destruct (visit _ _ _ _ _) as [[level'|e|] [s1 h1]]; [|done|done].
    cbn in Hv. subst s1. apply IH, Hrest.
Qed.

End Loop.

(** X12. On a server that lists every folder, a scan started in a folder raises
    nothing and, when it returns, has the server back in the working
    directory it started in; it does return when [fuel] exceeds the height
    of the tree below that folder. *)
Theorem scan_restores_cwd (fuel : nat) :
  forall max_depth max_files optimized count depth fs wd listable content,
    listable_everywhere fs = true ->
    at_path fs wd = Some (Folder listable content) ->
    restoring (fuel <= height (Folder listable content))%nat
              (__getContent fuel max_depth max_files optimized count depth)
              (State fs wd).
Proof.
  induction fuel as [|fuel IH]; intros * Hroot Hcwd h; [cbn; lia|].
  cbn [__getContent].
  destruct (_ && _); [reflexivity|]. destruct (_ && _); [reflexivity|].
  unfold bind at 1, call.
  cbn [respond server server_state MockFS.cwd MockFS.root]. rewrite Hcwd.
  pose proof (at_path_listable _ _ _ Hroot Hcwd) as Hhere.
  destruct listable; [|discriminate Hhere].
  unfold bind.
  match goal with
  | |- context [for_each ?body ?level ?entries ?ftp] =>
      assert (Hloop : restoring (S fuel <= height (Folder true content))%nat
                        (for_each body level entries) (State fs wd))
  end.
  { eapply for_each_restoring; [exact Hroot|exact Hcwd| |].
    - intros name [|l' content'] Hchild Hfolder; [discriminate|].
      apply IH; [exact Hroot|]. now rewrite at_path_snoc, Hcwd.
    - apply List.Forall_forall. intros entry [_ Hlisted]%filter_In.
      intros ->. vm_compute in Hlisted. discriminate Hlisted. }
  specialize (Hloop (h ++ [(NLST, Ok (map fst content))])).
  destruct (for_each _ _ _ _) as [[level|e|] ftp1]; done.
Qed.

End MockFS_facts.

(** * Further properties *)

(** ** [getMaxRights]: the rights as a function of what the lines grant *)

Section Rights_more.
Import Rights.

(** The number of a kind, from what the entries of that kind grant. *)
Lemma to_number_granted kind data (result : list bool) :
  (forall k, (k < 9)%nat -> slot result k = granted kind k data) ->
  to_number result
  = 100 * digit (granted kind 0 data) (granted kind 1 data) (granted kind 2 data)
    + 10 * digit (granted kind 3 data) (granted kind 4 data) (granted kind 5 data)
    + digit (granted kind 6 data) (granted kind 7 data) (granted kind 8 data).
Proof.
  intros Hslots. rewrite to_number_digits.
  now rewrite !Hslots by lia.
Qed.

Lemma parseMaxRights_by_grants data :
  parseMaxRights data
  = (if observed "d" data then
       100 * digit (granted "d" 0 data) (granted "d" 1 data) (granted "d" 2 data)
       + 10 * digit (granted "d" 3 data) (granted "d" 4 data) (granted "d" 5 data)
       + digit (granted "d" 6 data) (granted "d" 7 data) (granted "d" 8 data)
     else -1,
     if observed "-" data then
       100 * digit (granted "-" 0 data) (granted "-" 1 data) (granted "-" 2 data)
       + 10 * digit (granted "-" 3 data) (granted "-" 4 data) (granted "-" 5 data)
       + digit (granted "-" 6 data) (granted "-" 7 data) (granted "-" 8 data)
     else -1).
Proof.
  rewrite parseMaxRights_cases. cbv zeta.
  rewrite (to_number_granted "d" data), (to_number_granted "-" data);
    [reflexivity| |]; intros k Hk; now apply tables_are_unions.
Qed.

Lemma digit_range r w x : 0 <= digit r w x <= 7.
Proof. unfold digit. destruct r, w, x; lia. Qed.

Lemma digit_monotone r w x r' w' x' :
  digit r w x <= digit (r || r') (w || w') (x || x').
Proof. unfold digit. destruct r, w, x, r', w', x'; cbn [orb]; lia. Qed.

Lemma existsb_Permutation {A} (p : A -> bool) (l l' : list A) :
  Permutation l l' -> existsb p l = existsb p l'.
Proof.
  induction 1 as [|x l l' _ IH|x y l|l l' l'' _ IH1 _ IH2]; cbn.
  - reflexivity.
  - now rewrite IH.
  - now rewrite !orb_assoc, (orb_comm (p y)).
  - now rewrite IH1.
Qed.

Lemma existsb_filter {A} (p q : A -> bool) (l : list A) :
  (forall x, p x = true -> q x = true) ->
  existsb p (List.filter q l) = existsb p l.
Proof.
  intros Hpq. induction l as [|x l IH]; cbn; [reflexivity|].
  destruct (q x) eqn:Hq; cbn; rewrite IH; [reflexivity|].
  destruct (p x) eqn:Hp; [|reflexivity]. apply Hpq in Hp. congruence.
Qed.

(** X1. Each component of the result is -1 or a number between 0 and 777
    whose three decimal digits are at most 7. *)
Theorem parseMaxRights_range (data : list string) :
  let octal n := n = -1 \/ (0 <= n <= 777 /\ n / 100 <= 7
                            /\ (n / 10) mod 10 <= 7 /\ n mod 10 <= 7) in
  octal (fst (parseMaxRights data)) /\ octal (snd (parseMaxRights data)).
Proof.
  cbv zeta. rewrite parseMaxRights_by_grants. cbn [fst snd].
  assert (Hnum : forall a b c, 0 <= a <= 7 -> 0 <= b <= 7 -> 0 <= c <= 7 ->
            let n := 100 * a + 10 * b + c in
            0 <= n <= 777 /\ n / 100 <= 7 /\ (n / 10) mod 10 <= 7 /\ n mod 10 <= 7).
  { intros a b c Ha Hb Hc n. subst n.
    assert ((100 * a + 10 * b + c) / 100 = a) as ->
      by (symmetry; apply Z.div_unique with (10 * b + c); lia).
    assert ((100 * a + 10 * b + c) / 10 = 10 * a + b) as ->
      by (symmetry; apply Z.div_unique with c; lia).
    assert ((10 * a + b) mod 10 = b) as ->
      by (symmetry; apply Z.mod_unique with a; lia).
    assert ((100 * a + 10 * b + c) mod 10 = c) as ->
      by (symmetry; apply Z.mod_unique with (10 * a + b); lia).
    lia. }
  split.
  - destruct (observed "d" data); [right|left; reflexivity].
    apply Hnum; apply digit_range.
  - destruct (observed "-" data); [right|left; reflexivity].
    apply Hnum; apply digit_range.
Qed.

(** X2. The result does not depend on the order of the lines. *)
Theorem parseMaxRights_Permutation (data data' : list string) :
  Permutation data data' -> parseMaxRights data = parseMaxRights data'.
Proof.
  intros Hperm. rewrite !parseMaxRights_by_grants. unfold observed, granted.
  now rewrite !(existsb_Permutation _ data data' Hperm).
Qed.

(** X3. Lines of ten characters or less, and lines that start with
    neither 'd' nor '-' (links among them), change nothing; and the rights
    of a kind depend on the lines of that kind only. *)
Theorem parseMaxRights_counted_lines (data : list string) :
  parseMaxRights data
  = parseMaxRights
      (List.filter (fun line => counted "d" line || counted "-" line) data)
  /\ fst (parseMaxRights data)
     = fst (parseMaxRights (List.filter (counted "d") data))
  /\ snd (parseMaxRights data)
     = snd (parseMaxRights (List.filter (counted "-") data)).
Proof.
  rewrite !parseMaxRights_by_grants. unfold observed, granted, counted. cbn [fst snd].
  repeat split; rewrite !existsb_filter; try reflexivity;
    intros line Hline; rewrite ?andb_true_iff in Hline;
    rewrite ?orb_true_iff, ?andb_true_iff; tauto.
Qed.

(** X4. More lines never lower a result: both components of the rights of
    a longer listing are at least those of the listing it extends, and a
    right granted in the shorter one stays granted. *)
Theorem parseMaxRights_monotone (data more : list string) :
  fst (parseMaxRights data) <= fst (parseMaxRights (data ++ more))
  /\ snd (parseMaxRights data) <= snd (parseMaxRights (data ++ more))
  /\ (forall kind k, granted kind k data = true ->
        granted kind k (data ++ more) = true).
Proof.
  rewrite !parseMaxRights_by_grants. unfold observed, granted. cbn [fst snd].
  rewrite !existsb_app.
  assert (Hnum : forall (o o' : bool) (a b c a' b' c' : Z),
            a <= a' -> b <= b' -> c <= c' -> 0 <= a' -> 0 <= b' -> 0 <= c' ->
            (if o then 100 * a + 10 * b + c else -1)
            <= (if o || o' then 100 * a' + 10 * b' + c' else -1))
    by (intros [] []; cbn [orb]; lia).
  split; [|split].
  - apply Hnum; try apply digit_monotone; apply digit_range.
  - apply Hnum; try apply digit_monotone; apply digit_range.
  - intros kind k Hk. rewrite existsb_app. now rewrite Hk.
Qed.

End Rights_more.

(** ** The probe and the listing: commands and exceptions *)

Section Probe_more.
Context `{FTP server}.
Implicit Types ftp : ftp_instance server.

(** X6. Whatever the server answers, the commands of a probe are taken,
    in this order and each at most once, from [MKD dir_name],
    [RMD dir_name], [STOR filename], [DELE filename], and the first one is
    [MKD dir_name]: no other name is touched, nothing is listed, the
    working directory is not changed. *)
Theorem probe_commands ftp (dir_name filename : string) :
  exists delta,
    issued ftp (snd (checkWriteAndDeleteAccess dir_name filename ftp)) delta
    /\ sublist (fst <$> delta)
               [MKD dir_name; RMD dir_name; STOR filename; DELE filename]
    /\ head (fst <$> delta) = Some (MKD dir_name).
Proof.
  unfold checkWriteAndDeleteAccess, bind, try_except_else, call, ret. cbn.
  repeat answer;
    (eexists; split; [eauto with issued|]); (split; [|reflexivity]);
    change (fst <$> ?l) with (map fst l); cbn [map fst];
    repeat first [apply sublist_nil | apply sublist_skip | apply sublist_cons].
Qed.

(** X5. [getMaxRights] issues one command, [LIST], and nothing else; an
    exception leaves it exactly when the server answers [LIST] with an
    exception other than [error_perm], and it is that exception. *)
Theorem getMaxRights_raises ftp :
  (exists r, issued ftp (snd (getMaxRights ftp)) [(LIST, r)])
  /\ (forall e, fst (getMaxRights ftp) = Raises e
                <-> e <> error_perm
                    /\ fst (respond LIST (server_state ftp)) = Err e)
  /\ fst (getMaxRights ftp) <> OutOfFuel.
Proof.
  unfold getMaxRights, try_except_else, call, ret.
  destruct (respond LIST (server_state ftp)) as [[data|[]] s']; cbn;
    (split; [eexists; reflexivity|]); (split; [|discriminate]);
    intros e; split;
    try discriminate;
    try (intros [= <-]; split; [discriminate|reflexivity]);
    try (intros [Hne [= <-]]; (reflexivity || congruence)).
Qed.

End Probe_more.


(** ** [__getContent]: what a scan issues, returns and raises *)

Section Scanner_more.
Context `{FTP server}.
Implicit Types ftp : ftp_instance server.

Lemma issues_only_ret {A} allowed (a : A) :
  issues_only (server := server) allowed (ret a).
Proof. intros ftp. exists []. cbn. now rewrite app_nil_r. Qed.

Lemma issues_only_out_of_fuel {A} allowed :
  issues_only (server := server) (A := A) allowed out_of_fuel.
Proof. intros ftp. exists []. cbn. now rewrite app_nil_r. Qed.

Lemma issues_only_call (allowed : command -> Prop) (c : command) :
  allowed c -> issues_only allowed (call c).
Proof.
  intros Hc ftp. unfold call.
  destruct (respond c (server_state ftp)) as [[lines|e] s'];
    eexists; (split; [reflexivity|]); repeat constructor; exact Hc.
Qed.

Lemma issues_only_step allowed ftp1 ftp2 ftp3 (delta delta' : list (command * reply)) :
  history ftp2 = history ftp1 ++ delta -> Forall (fun x => allowed (fst x)) delta ->
  history ftp3 = history ftp2 ++ delta' -> Forall (fun x => allowed (fst x)) delta' ->
  exists delta'' : list (command * reply),
    history ftp3 = history ftp1 ++ delta''
    /\ Forall (fun x => allowed (fst x)) delta''.
Proof.
  intros H1 Hd H2 Hd'. exists (delta ++ delta'). split.
  - now rewrite H2, H1, app_assoc.
  - apply Forall_app. auto.
Qed.

Lemma issues_only_try_except_else {A B} allowed (body : M server A) caught
    (handler : M server B) (orelse : A -> M server B) :
  issues_only allowed body -> issues_only allowed handler ->
  (forall a, issues_only allowed (orelse a)) ->
  issues_only allowed (try_except_else body caught handler orelse).
Proof.
  intros Hbody Hhandler Horelse ftp. unfold try_except_else.
  destruct (Hbody ftp) as (delta & Hdelta & Hallowed).
  destruct (body ftp) as [[a|e|] ftp1]; cbn in Hdelta.
  - destruct (Horelse a ftp1) as (delta' & Hdelta' & Hallowed').
    eapply issues_only_step; eassumption.
  - destruct (caught e); [|eauto].
    destruct (Hhandler ftp1) as (delta' & Hdelta' & Hallowed').
    eapply issues_only_step; eassumption.
  - eauto.
Qed.

Lemma issues_only_bind {A B} allowed (m : M server A) (k : A -> M server B) :
  issues_only allowed m -> (forall a, issues_only allowed (k a)) ->
  issues_only allowed (bind m k).
Proof.
  intros Hm Hk ftp. unfold bind.
  destruct (Hm ftp) as (delta & Hdelta & Hallowed).
  destruct (m ftp) as [[a|e|] ftp1]; cbn in Hdelta; eauto.
  destruct (Hk a ftp1) as (delta' & Hdelta' & Hallowed').
  eapply issues_only_step; eassumption.
Qed.

Lemma issues_only_for_each {A B} allowed (body : B -> A -> M server B) :
  (forall b a, issues_only allowed (body b a)) ->
  forall l b, issues_only allowed (for_each body b l).
Proof.
  intros Hbody l. induction l as [|a l IH]; intros b; cbn.
  - apply issues_only_ret.
  - apply issues_only_bind; auto.
Qed.

Lemma navigation_NLST : navigation NLST.
Proof. now left. Qed.

Lemma navigation_CWD path : navigation (CWD path).
Proof. right. now exists path. Qed.

Lemma issues_only_visit (recurse : M server tree) optimized level entry :
  issues_only navigation recurse ->
  issues_only navigation (visit recurse optimized level entry).
Proof.
  intros Hrec. unfold visit, try_except.
  apply issues_only_try_except_else; auto using issues_only_ret.
  destruct (_ || _); [|apply issues_only_ret].
  repeat (apply issues_only_bind;
          [auto using issues_only_call, navigation_CWD|intros ?]).
  apply issues_only_ret.
Qed.

(** X7. A scan only lists names and changes directory: whatever the
    server answers and whatever the limits, every command issued by
    [__getContent] is [NLST] or [CWD]; nothing is created, removed,
    uploaded or deleted. *)
Theorem scan_issues_navigation_only (fuel : nat) :
  forall max_depth max_files optimized count depth,
    issues_only navigation
      (__getContent fuel max_depth max_files optimized count depth).
Proof.
  induction fuel as [|fuel IH]; intros; cbn [__getContent].
  - apply issues_only_out_of_fuel.
  - destruct (_ && _); [apply issues_only_ret|].
    destruct (_ && _); [apply issues_only_ret|].
    apply issues_only_bind;
      [apply issues_only_call, navigation_NLST|intros paths].
    apply issues_only_bind; [|intros; apply issues_only_ret].
    apply issues_only_for_each. intros level entry.
    apply issues_only_visit, IH.
Qed.

End Scanner_more.

Section Scanner_results.
Context `{FTP server}.
Implicit Types ftp : ftp_instance server.

(** What one entry leaves in [level], by cases on how [visit] ends. *)
Lemma visit_returns (recurse : M server tree) optimized level entry ftp level' ftp' :
  visit recurse optimized level entry ftp = (Returns level', ftp') ->
  level' = <[entry_name entry := Leaf]> level
  \/ exists sub ftp1 ftp2,
       recurse ftp1 = (Returns sub, ftp2)
       /\ level' = <[entry_name entry := sub]> level.
Proof.
  unfold visit, try_except, try_except_else, bind, ret.
  destruct (_ || _); [|intros [= <- <-]; now left].
  destruct (call (CWD entry) ftp) as [[lines|e|] ftp1].
  - destruct (recurse ftp1) as [[sub|e|] ftp2] eqn:Hrec.
    + destruct (call (CWD "..") ftp2) as [[lines'|e|] ftp3].
      * intros [= <- <-]. right. eauto.
      * destruct (ftplib_errors e); intros [= <- <-]. now left.
      * discriminate.
    + destruct (ftplib_errors e); intros [= <- <-]. now left.
    + discriminate.
  - destruct (ftplib_errors e); intros [= <- <-]. now left.
  - discriminate.
Qed.

(** An exception that leaves [visit] is none of the four of line 85. *)
Lemma visit_raises (recurse : M server tree) optimized level entry ftp e ftp' :
  visit recurse optimized level entry ftp = (Raises e, ftp') ->
  ftplib_errors e = false.
Proof.
  unfold visit, try_except, try_except_else, bind, ret.
  destruct (_ || _); [|discriminate].
  destruct (call (CWD entry) ftp) as [[lines|e'|] ftp1].
  - destruct (recurse ftp1) as [[sub|e'|] ftp2].
    + destruct (call (CWD "..") ftp2) as [[lines'|e'|] ftp3]; try discriminate.
      destruct (ftplib_errors e') eqn:He'; [discriminate|]. now intros [= <- <-].
    + destruct (ftplib_errors e') eqn:He'; [discriminate|]. now intros [= <- <-].
    + discriminate.
  - destruct (ftplib_errors e') eqn:He'; [discriminate|]. now intros [= <- <-].
  - discriminate.
Qed.

Lemma for_each_visit_raises (recurse : M server tree) optimized entries :
  forall level ftp e ftp',
    for_each (visit recurse optimized) level entries ftp = (Raises e, ftp') ->
    ftplib_errors e = false.
Proof.
  induction entries as [|entry entries IH]; intros level ftp e ftp'; cbn.
  - discriminate.
  - unfold bind.
    destruct (visit recurse optimized level entry ftp) as [[level'|e'|] ftp1] eqn:Hv.
    + apply IH.
    + intros [= <- <-]. eapply visit_raises, Hv.
    + discriminate.
Qed.

(** An invariant of the values of [level] that every recursive result has
    is kept by the loop. *)
Lemma for_each_visit_values (P : tree -> Prop) (recurse : M server tree) optimized :
  P Leaf ->
  (forall ftp sub ftp', recurse ftp = (Returns sub, ftp') -> P sub) ->
  forall entries level ftp level' ftp',
    for_each (visit recurse optimized) level entries ftp = (Returns level', ftp') ->
    (forall name t, level !! name = Some t -> P t) ->
    forall name t, level' !! name = Some t -> P t.
Proof.
  intros Hleaf Hrec entries.
  induction entries as [|entry entries IH]; intros level ftp level' ftp'; cbn.
  - now intros [= <- <-].
  - unfold bind.
    destruct (visit recurse optimized level entry ftp) as [[level1|e|] ftp1] eqn:Hv;
      try discriminate.
    intros Hrest Hlevel. eapply IH; [exact Hrest|].
    intros name t.
    destruct (visit_returns _ _ _ _ _ _ _ Hv)
      as [->|(sub & ftp2 & ftp3 & Hsub & ->)];
      (destruct (decide (entry_name entry = name)) as [->|Hne];
       [rewrite lookup_insert_eq; intros [= <-]
       |rewrite lookup_insert_ne by done; apply Hlevel]); eauto.
Qed.

(** The keys the loop adds are the names of the entries. *)
Lemma for_each_visit_dom (recurse : M server tree) optimized entries :
  forall level ftp level' ftp',
    for_each (visit recurse optimized) level entries ftp = (Returns level', ftp') ->
    dom level' = dom level ∪ list_to_set (entry_name <$> entries).
Proof.
  induction entries as [|entry entries IH]; intros level ftp level' ftp'; cbn.
  - intros [= <- <-]. set_solver.
  - unfold bind.
    destruct (visit recurse optimized level entry ftp) as [[level1|e|] ftp1] eqn:Hv;
      try discriminate.
    intros Hrest. rewrite (IH _ _ _ _ Hrest).
    destruct (visit_returns _ _ _ _ _ _ _ Hv)
      as [->|(sub & ftp2 & ftp3 & Hsub & ->)];
      rewrite dom_insert_L; set_solver.
Qed.

(** A call that returns a dictionary has listed the directory. *)
Lemma getContent_Subtree fuel max_depth max_files optimized count depth ftp level ftp' :
  __getContent fuel max_depth max_files optimized count depth ftp
  = (Returns (Subtree level), ftp') ->
  exists fuel' count' paths s',
    fuel = S fuel'
    /\ respond NLST (server_state ftp) = (Ok paths, s')
    /\ for_each (visit (__getContent fuel' max_depth max_files (PyInt count')
                          (depth + 1) 0) optimized)
         ∅ (List.filter listed paths)
         (Connection s' (history ftp ++ [(NLST, Ok paths)]))
       = (Returns level, ftp')
    /\ count' = (if max_files >=? 0 then count + 1 else count).
Proof.
  destruct fuel as [|fuel]; [discriminate|]. cbn [__getContent].
  destruct (_ && _); [discriminate|]. destruct (_ && _); [discriminate|].
  unfold bind at 1, call.
  destruct (respond NLST (server_state ftp)) as [[paths|e] s'] eqn:Hnlst;
    [|discriminate].
  unfold bind, ret.
  destruct (for_each _ _ _ _) as [[level1|e|] ftp1] eqn:Hloop; try discriminate.
  intros [= <- <-]. eauto 10.
Qed.

(** X8. The keys of a returned dictionary are the last path segments of
    the names the server listed, "." and ".." left out: no listed entry is
    dropped and no other key appears. *)
Theorem scan_keys fuel max_depth max_files optimized count depth ftp level ftp' :
  __getContent fuel max_depth max_files optimized count depth ftp
  = (Returns (Subtree level), ftp') ->
  exists paths s',
    respond NLST (server_state ftp) = (Ok paths, s')
    /\ dom level = list_to_set (entry_name <$> List.filter listed paths).
Proof.
  intros (fuel' & count' & paths & s' & _ & Hnlst & Hloop & _)%getContent_Subtree.
  exists paths, s'. split; [exact Hnlst|].
  rewrite (for_each_visit_dom _ _ _ _ _ _ _ Hloop). set_solver.
Qed.

(** X9. Below the root listing the four exceptions of [ftplib] never leave
    a scan: when [__getContent] raises one of them, the only command it
    issued is the first [NLST], and that is what raised it. *)
Theorem scan_raises fuel max_depth max_files optimized count depth ftp e ftp' :
  __getContent fuel max_depth max_files optimized count depth ftp = (Raises e, ftp') ->
  e = error_other
  \/ issued ftp ftp' [(NLST, Err e)].
Proof.
  destruct fuel as [|fuel]; [discriminate|]. cbn [__getContent].
  destruct (_ && _); [discriminate|]. destruct (_ && _); [discriminate|].
  unfold bind at 1, call.
  destruct (respond NLST (server_state ftp)) as [[paths|e'] s'].
  - unfold bind, ret.
    destruct (for_each _ _ _ _) as [[level1|e'|] ftp1] eqn:Hloop; try discriminate.
    intros [= <- <-]. left.
    apply for_each_visit_raises in Hloop. destruct e'; (reflexivity || discriminate).
  - intros [= <- <-]. right. reflexivity.
Qed.

(** The limits cut nothing when [max_files] is negative or at least 3:
    [count] is 0 in the call of [getContent] and 2 in every other call. *)
Lemma cut_free_getContent (fuel : nat) :
  forall max_depth max_files optimized count ftp t ftp',
    max_files < 0 \/ 2 < max_files ->
    max_files < 0 \/ count + 1 < max_files ->
    __getContent fuel max_depth max_files optimized count 0 ftp = (Returns t, ftp') ->
    cut_free t.
Proof.
  induction fuel as [|fuel IH]; intros * Hfiles Hcount; [discriminate|].
  cbn [__getContent]. rewrite depth_zero_within.
  replace ((max_files >=? 0)
           && ((if max_files >=? 0 then count + 1 else count) >=? max_files))
    with false
    by (symmetry; destruct (Z.geb_spec max_files 0); cbn [andb]; [|reflexivity];
        destruct (Z.geb_spec (count + 1) max_files); [lia|reflexivity]).
  unfold bind at 1.
  destruct (call NLST ftp) as [[paths|e|] ftp1]; try discriminate.
  unfold bind, ret.
  destruct (for_each _ _ _ _) as [[level|e|] ftp2] eqn:Hloop; try discriminate.
  intros [= <- <-]. constructor.
  eapply (for_each_visit_values cut_free); [constructor| |exact Hloop|].
  - intros ftp3 sub ftp4 Hsub. eapply (IH _ _ _ _ _ _ _ Hfiles); [|exact Hsub]. lia.
  - intros name t. rewrite lookup_empty. discriminate.
Qed.

End Scanner_results.

(** X10. With [max_files] negative or at least 3, a scan started by
    [getContent] reports no ['+'] at any depth, whatever [max_depth] is and
    whatever the server holds. *)
Theorem scan_never_cut `{FTP server} fuel max_depth max_files
    (ftp : ftp_instance server) t ftp' :
  max_files < 0 \/ 3 <= max_files ->
  getContent fuel max_depth max_files ftp = (Returns t, ftp') ->
  cut_free t.
Proof.
  intros Hfiles. apply cut_free_getContent; lia.
Qed.

Section Scanner_limits.
Context `{FTP server}.
Implicit Types ftp : ftp_instance server.



End Scanner_limits.

(** ** The name of an entry (lines 68-69) *)

Lemma split_nonempty sep s : split sep s <> [].
Proof.
  destruct s as [|c s]; cbn; [discriminate|].
  case_bool_decide; [discriminate|]. destruct (split sep s); discriminate.
Qed.

(** The last piece of a path, and what is before it. *)
Lemma split_last sep s :
  exists pieces name,
    split sep s = pieces ++ [name]
    /\ find sep name < 0
    /\ ((pieces = [] /\ s = name)
        \/ exists before, pieces <> [] /\ s = before +:+ String sep name).
Proof.
  induction s as [|c s (pieces & name & Hsplit & Hname & Hshape)]; cbn [split].
  - exists [], "". cbn. split; [reflexivity|]. split; [lia|]. now left.
  - case_bool_decide as Hc.
    + subst c. exists ("" :: pieces), name. rewrite Hsplit.
      split; [reflexivity|]. split; [exact Hname|]. right.
      destruct Hshape as [[-> ->]|(before & Hpieces & ->)].
      * exists "". split; [discriminate|reflexivity].
      * exists (String sep before). split; [discriminate|reflexivity].
    + rewrite Hsplit.
      destruct Hshape as [[-> ->]|(before & Hpieces & ->)]; cbn [app].
      * exists [], (String c name). split; [reflexivity|].
        split; [|now left]. cbn [find]. rewrite bool_decide_eq_false_2 by done.
        cbv zeta. destruct (Z.ltb_spec (find sep name) 0); lia.
      * destruct pieces as [|piece pieces]; [done|]. cbn [app].
        exists (String c piece :: pieces), name.
        split; [reflexivity|]. split; [exact Hname|]. right.
        exists (String c before). split; [discriminate|reflexivity].
Qed.

(** X13. The key under which an entry is reported holds no '/', and is the
    whole path when the path holds no '/' and otherwise what follows its
    last '/'. *)
Theorem entry_name_last_segment (entry : string) :
  find "/" (entry_name entry) < 0
  /\ (entry = entry_name entry
      \/ exists before, entry = before +:+ String "/" (entry_name entry)).
Proof.
  unfold entry_name.
  destruct (split_last "/" entry) as (pieces & name & -> & Hname & Hshape).
  assert (nth (length (pieces ++ [name]) - 1) (pieces ++ [name]) "" = name) as ->.
  { rewrite length_app. cbn [length].
    replace (length pieces + 1 - 1)%nat with (length pieces) by lia.
    rewrite app_nth2 by lia. now rewrite Nat.sub_diag. }
  split; [exact Hname|].
  destruct Hshape as [[_ ->]|(before & _ & ->)]; [now left|right; eauto].
Qed.

(** ** [src/utils/ip.py]: public ranges between two addresses *)

Module Ip_facts.
Import Ip.

(** The loop of [getValidPublicIps] appends, for each public range, what
    that range adds to an empty list. *)
Lemma clip_app ip_begin ip_end acc r :
  clip ip_begin ip_end acc r = acc ++ clip ip_begin ip_end [] r.
Proof.
  unfold clip. destruct (_ && _); [|now rewrite app_nil_r].
  cbv zeta. destruct (_ <=? _); [reflexivity|now rewrite app_nil_r].
Qed.

Lemma foldl_clip ip_begin ip_end table : forall acc,
  foldl (clip ip_begin ip_end) acc table
  = acc ++ flat_map (clip ip_begin ip_end []) table.
Proof.
  induction table as [|r table IH]; intros acc; cbn [foldl flat_map].
  - now rewrite app_nil_r.
  - now rewrite IH, clip_app, <- app_assoc.
Qed.

(** One public range adds its part between the bounds, or nothing when it
    has no address between them. *)
Lemma clip_cases ip_begin ip_end r :
  ip_begin <= ip_end ->
  (clip ip_begin ip_end [] r
   = [(Z.max ip_begin (fst r), Z.min ip_end (snd r))]
   /\ Z.max ip_begin (fst r) <= Z.min ip_end (snd r))
  \/ (clip ip_begin ip_end [] r = []
      /\ (fst r <= snd r -> ip_end < fst r \/ snd r < ip_begin)).
Proof.
  intros Hbounds. unfold clip.
  destruct (Z.leb_spec (fst r) ip_end), (Z.geb_spec (snd r) ip_begin);
    cbn [andb app]; try (right; split; [reflexivity|lia]).
  destruct (Z.leb_spec (Z.max ip_begin (fst r)) (Z.min ip_end (snd r)));
    [left; split; [reflexivity|lia]|right; split; [reflexivity|lia]].
Qed.

Lemma within_nil ip : ~ within [] ip.
Proof. intros (r & [] & _). Qed.

Lemma within_cons r ranges ip :
  within (r :: ranges) ip <-> fst r <= ip <= snd r \/ within ranges ip.
Proof.
  unfold within. split.
  - intros (r' & [<-|Hin] & Hip); eauto.
  - intros [Hip|(r' & Hin & Hip)]; [exists r|exists r']; cbn; auto.
Qed.

Lemma within_app ranges ranges' ip :
  within (ranges ++ ranges') ip <-> within ranges ip \/ within ranges' ip.
Proof.
  induction ranges as [|r ranges IH]; cbn [app].
  - pose proof (within_nil ip). tauto.
  - rewrite !within_cons, IH. tauto.
Qed.

Lemma within_clipped ip_begin ip_end table ip :
  ip_begin <= ip_end ->
  within (flat_map (clip ip_begin ip_end []) table) ip
  <-> ip_begin <= ip <= ip_end /\ within table ip.
Proof.
  intros Hbounds. induction table as [|r table IH]; cbn [flat_map].
  - pose proof (within_nil ip). tauto.
  - rewrite within_app, within_cons, IH.
    destruct (clip_cases ip_begin ip_end r Hbounds) as [[-> Hr]|[-> Hr]].
    + rewrite within_cons. cbn [fst snd]. pose proof (within_nil ip).
      assert (Z.max ip_begin (fst r) <= ip <= Z.min ip_end (snd r)
              <-> ip_begin <= ip <= ip_end /\ fst r <= ip <= snd r) by lia.
      tauto.
    + pose proof (within_nil ip).
      assert (~ (ip_begin <= ip <= ip_end /\ fst r <= ip <= snd r)) by lia.
      tauto.
Qed.

Lemma intToIp_Some n : (exists s, intToIp n = Some s) <-> 0 <= n <= 4294967295.
Proof.
  unfold intToIp, pack_I.
  destruct (Z.leb_spec 0 n), (Z.leb_spec n 4294967295); cbn [andb]; split;
    try lia; try (intros [s Hs]; discriminate); eauto.
Qed.

Lemma intToIp_None n : intToIp n = None <-> ~ 0 <= n <= 4294967295.
Proof.
  unfold intToIp, pack_I.
  destruct (Z.leb_spec 0 n), (Z.leb_spec n 4294967295); cbn [andb]; split;
    try lia; try discriminate; reflexivity.
Qed.

(** X14. When [getValidPublicIps] returns, an address lies in one of the
    returned ranges exactly when it lies between [ip_begin] and [ip_end]
    and in a public range: no public address of the interval is missed and
    nothing else is returned. *)
Theorem getValidPublicIps_within (ip_begin ip_end : Z) (ranges : list (Z * Z)) :
  getValidPublicIps ip_begin ip_end = Some ranges ->
  forall ip, within ranges ip
             <-> ip_begin <= ip <= ip_end /\ within getValidPublicIpRange ip.
Proof.
  unfold getValidPublicIps. destruct (Z.gtb_spec ip_begin ip_end) as [Hgt|Hle].
  - destruct (intToIp ip_end); [|discriminate].
    destruct (intToIp ip_begin); [|discriminate].
    intros [= <-] ip. split; [intros Hnil; now apply within_nil in Hnil|lia].
  - intros Hranges ip. rewrite foldl_clip in Hranges. cbn [app] in Hranges.
    assert (ranges = flat_map (clip ip_begin ip_end []) getValidPublicIpRange)
      as -> by congruence.
    now apply within_clipped.
Qed.

(** X15. [getValidPublicIps] leaves by [struct.error] exactly when the
    bounds are inverted and one of them is not an address of 32 bits; for
    [ip_begin <= ip_end] it returns for all integers, and for inverted
    addresses of 32 bits it returns the empty list. *)
Theorem getValidPublicIps_raises (ip_begin ip_end : Z) :
  (getValidPublicIps ip_begin ip_end = None
   <-> ip_begin > ip_end
       /\ ~ (0 <= ip_begin <= 4294967295 /\ 0 <= ip_end <= 4294967295))
  /\ (ip_begin > ip_end -> forall ranges,
        getValidPublicIps ip_begin ip_end = Some ranges -> ranges = []).
Proof.
  unfold getValidPublicIps. destruct (Z.gtb_spec ip_begin ip_end) as [Hgt|Hle].
  - destruct (intToIp ip_end) as [char_ip_end|] eqn:Hend;
      [destruct (intToIp ip_begin) as [char_ip_begin|] eqn:Hbegin|].
    + assert (0 <= ip_end <= 4294967295) by (apply intToIp_Some; eauto).
      assert (0 <= ip_begin <= 4294967295) by (apply intToIp_Some; eauto).
      split; [split; [discriminate|tauto]|]. now intros _ ranges [= <-].
    + apply intToIp_None in Hbegin.
      split; [split; [intros _; split; [lia|tauto]|reflexivity]|discriminate].
    + apply intToIp_None in Hend.
      split; [split; [intros _; split; [lia|tauto]|reflexivity]|discriminate].
  - split; [split; [discriminate|lia]|lia].
Qed.

Lemma ascending_below r ranges :
  ascending (r :: ranges) -> Forall (fun r' => snd r < fst r') ranges.
Proof.
  revert r. induction ranges as [|r' ranges IH]; intros r; [constructor|].
  intros (Hr & Hnext & Hrest). constructor; [exact Hnext|].
  pose proof (IH r' Hrest) as Hbelow. destruct Hrest as (Hr' & _).
  eapply Forall_impl; [exact Hbelow|]. cbn. intros r'' Hlt. lia.
Qed.

Lemma ascending_cons r ranges :
  fst r <= snd r -> Forall (fun r' => snd r < fst r') ranges ->
  ascending ranges -> ascending (r :: ranges).
Proof.
  intros Hr Hbelow Hranges. cbn. split; [exact Hr|]. split; [|exact Hranges].
  destruct ranges as [|r' ranges]; [exact I|]. now inversion Hbelow.
Qed.

Lemma clipped_above ip_begin ip_end (x : Z) table :
  ip_begin <= ip_end ->
  Forall (fun r => x < fst r) table ->
  Forall (fun r => x < fst r) (flat_map (clip ip_begin ip_end []) table).
Proof.
  intros Hbounds. induction 1 as [|r table Hr _ IH]; cbn [flat_map]; [constructor|].
  apply Forall_app. split; [|exact IH].
  destruct (clip_cases ip_begin ip_end r Hbounds) as [[-> _]|[-> _]];
    repeat constructor. cbn. lia.
Qed.

Lemma clipped_ascending ip_begin ip_end table :
  ip_begin <= ip_end -> ascending table ->
  ascending (flat_map (clip ip_begin ip_end []) table)
  /\ Forall (fun r => ip_begin <= fst r /\ snd r <= ip_end)
            (flat_map (clip ip_begin ip_end []) table)
  /\ addresses (flat_map (clip ip_begin ip_end []) table) <= addresses table.
Proof.
  intros Hbounds. induction table as [|r table IH]; intros Htable; cbn [flat_map].
  - cbn. split; [exact I|split; [constructor|lia]].
  - pose proof (ascending_below _ _ Htable) as Hbelow.
    destruct Htable as (Hr & _ & Htable).
    destruct (IH Htable) as (Hasc & Hin & Hcount).
    destruct (clip_cases ip_begin ip_end r Hbounds) as [[-> Hclip]|[-> _]];
      cbn [app].
    + split; [|split].
      * apply ascending_cons; [exact Hclip| |exact Hasc]. cbn [fst snd].
        eapply Forall_impl; [apply (clipped_above _ _ (snd r)); eassumption|].
        cbn. intros r' Hr'. lia.
      * constructor; [cbn; lia|exact Hin].
      * unfold addresses in *. cbn [foldr fst snd]. lia.
    + split; [exact Hasc|split; [exact Hin|]].
      unfold addresses in *. cbn [foldr]. lia.
Qed.

Lemma public_ranges_ascending : ascending getValidPublicIpRange.
Proof. cbn. lia. Qed.

(** X16. The ranges [getValidPublicIps] returns are not empty, lie between
    [ip_begin] and [ip_end], and come in ascending order without touching
    each other. *)
Theorem getValidPublicIps_ascending (ip_begin ip_end : Z) (ranges : list (Z * Z)) :
  getValidPublicIps ip_begin ip_end = Some ranges ->
  ascending ranges
  /\ Forall (fun r => ip_begin <= fst r /\ fst r <= snd r /\ snd r <= ip_end) ranges.
Proof.
  unfold getValidPublicIps. destruct (Z.gtb_spec ip_begin ip_end) as [Hgt|Hle].
  - destruct (intToIp ip_end); [|discriminate].
    destruct (intToIp ip_begin); [|discriminate].
    intros [= <-]. split; [exact I|constructor].
  - intros Hranges. rewrite foldl_clip in Hranges. cbn [app] in Hranges.
    assert (ranges = flat_map (clip ip_begin ip_end []) getValidPublicIpRange)
      as -> by congruence.
    destruct (clipped_ascending ip_begin ip_end getValidPublicIpRange Hle
                public_ranges_ascending) as (Hasc & Hin & _).
    split; [exact Hasc|].
    clear - Hasc Hin. induction Hin as [|r l Hr _ IH]; constructor.
    + destruct Hasc as (? & _). lia.
    + apply IH. now destruct Hasc as (_ & _ & ?).
Qed.

(** Ascending ranges inside an interval hold no more addresses than the
    interval. *)
Lemma addresses_bounded (lo hi : Z) ranges :
  lo <= hi + 1 -> ascending ranges ->
  Forall (fun r => lo <= fst r /\ snd r <= hi) ranges ->
  0 <= addresses ranges <= hi - lo + 1.
Proof.
  revert lo. induction ranges as [|r ranges IH]; intros lo Hlo Hasc Hin.
  - cbn. lia.
  - pose proof (ascending_below _ _ Hasc) as Hbelow.
    destruct Hasc as (Hr & _ & Hasc). inversion_clear Hin as [|? ? Hrin Hrest].
    assert (Hrest' : Forall (fun r' => snd r + 1 <= fst r' /\ snd r' <= hi) ranges).
    { clear - Hbelow Hrest. induction Hrest; inversion_clear Hbelow; constructor.
      - lia.
      - auto. }
    specialize (IH (snd r + 1) ltac:(lia) Hasc Hrest').
    unfold addresses in *. cbn [foldr]. lia.
Qed.

(** X17. The count of line 89 is the number of addresses of the ranges of
    [getValidPublicIpRange]; and what [getValidPublicIps] returns never
    holds more addresses than that, nor more than the interval asked for. *)
Theorem getValidPublicIps_addresses (ip_begin ip_end : Z) (ranges : list (Z * Z)) :
  addresses getValidPublicIpRange = getNumberOfPublicIp
  /\ (getValidPublicIps ip_begin ip_end = Some ranges ->
      0 <= addresses ranges <= getNumberOfPublicIp
      /\ addresses ranges <= Z.max 0 (ip_end - ip_begin + 1)).
Proof.
  split; [reflexivity|].
  unfold getValidPublicIps. destruct (Z.gtb_spec ip_begin ip_end) as [Hgt|Hle].
  - destruct (intToIp ip_end); [|discriminate].
    destruct (intToIp ip_begin); [|discriminate].
    intros [= <-]. cbn. unfold getNumberOfPublicIp. lia.
  - intros Hranges. rewrite foldl_clip in Hranges. cbn [app] in Hranges.
    assert (ranges = flat_map (clip ip_begin ip_end []) getValidPublicIpRange)
      as -> by congruence.
    destruct (clipped_ascending ip_begin ip_end getValidPublicIpRange Hle
                public_ranges_ascending) as (Hasc & Hin & Hcount).
    pose proof (addresses_bounded ip_begin ip_end _ ltac:(lia) Hasc Hin).
    change (addresses getValidPublicIpRange) with getNumberOfPublicIp in Hcount.
    lia.
Qed.

End Ip_facts.

Module Ip_text.
Import Ip.

(** [str] is one to one. *)
Lemma str_inj n n' : str n = str n' -> n = n'.
Proof.
  unfold str. intros Hstr. apply DecimalZ.to_int_inj.
  assert (Hnonnil : forall z, Z.to_int z <> Decimal.Pos Decimal.Nil
                              /\ Z.to_int z <> Decimal.Neg Decimal.Nil).
  { intros [|p|p]; cbn; split; try discriminate;
      intros [= Hp]; now apply Unsigned.to_uint_nonnil in Hp. }
  assert (Hparse : forall z, NilZero.int_of_string (NilZero.string_of_int (Z.to_int z))
                             = Some (Z.to_int z))
    by (intros z; apply NilZero.isi; apply Hnonnil).
  pose proof (Hparse n) as Hn. rewrite Hstr, Hparse in Hn. congruence.
Qed.

Lemma find_lower c s : -1 <= find c s.
Proof.
  induction s as [|a s IH]; cbn; [lia|].
  destruct (bool_decide (a = c)); [lia|]. destruct (find c s <? 0) eqn:Hk; lia.
Qed.

Lemma find_cons_absent c a s :
  find c (String a s) < 0 -> a <> c /\ find c s < 0.
Proof.
  cbn. case_bool_decide; [lia|].
  destruct (Z.ltb_spec (find c s) 0); [tauto|]. intros Hk. lia.
Qed.

(** The digits of a number hold no dot. *)
Lemma find_dot_uint d : find "." (NilEmpty.string_of_uint d) < 0.
Proof.
  induction d; cbn [NilEmpty.string_of_uint find]; [lia|..];
    rewrite bool_decide_eq_false_2 by discriminate; cbv zeta;
    destruct (Z.ltb_spec (find "." (NilEmpty.string_of_uint d)) 0); lia.
Qed.

Lemma find_dot_str n : find "." (str n) < 0.
Proof.
  assert (Huint : forall d, find "." (NilZero.string_of_uint d) < 0).
  { intros d. destruct d; try apply (find_dot_uint (_ d)). vm_compute. reflexivity. }
  unfold str. destruct (Z.to_int n) as [d|d]; cbn [NilZero.string_of_int find].
  - apply Huint.
  - rewrite bool_decide_eq_false_2 by discriminate. cbv zeta.
    destruct (Z.ltb_spec (find "." (NilZero.string_of_uint d)) 0); [lia|].
    pose proof (Huint d). lia.
Qed.

(** Two texts without a dot, each followed by a dot and more, are equal
    only if they and what follows them are. *)
Lemma dotted_inj p : forall p' s s',
  find "." p < 0 -> find "." p' < 0 ->
  p +:+ String "." s = p' +:+ String "." s' -> p = p' /\ s = s'.
Proof.
  induction p as [|a p IH]; intros [|a' p'] s s' Hp Hp'; cbn.
  - now intros [= ->].
  - intros [= <- _]. apply find_cons_absent in Hp'. tauto.
  - intros [= -> _]. apply find_cons_absent in Hp. tauto.
  - intros [= <- Hrest].
    apply find_cons_absent in Hp as [_ Hp]. apply find_cons_absent in Hp' as [_ Hp'].
    destruct (IH _ _ _ Hp Hp' Hrest) as [-> ->]. auto.
Qed.

Lemma inet_ntoa_inj a b c d a' b' c' d' :
  inet_ntoa [a; b; c; d] = inet_ntoa [a'; b'; c'; d'] ->
  a = a' /\ b = b' /\ c = c' /\ d = d'.
Proof.
  unfold inet_ntoa. cbn [map String.concat].
  change (?x ++ "." ++ ?y)%string with (x +:+ String "." y).
  intros Habcd.
  apply dotted_inj in Habcd as [Ha Hbcd]; try apply find_dot_str.
  apply dotted_inj in Hbcd as [Hb Hcd]; try apply find_dot_str.
  apply dotted_inj in Hcd as [Hc Hd]; try apply find_dot_str.
  auto using str_inj.
Qed.

(** The four bytes of line 44 determine the number. *)
Lemma pack_I_value n packed :
  pack_I n = Some packed ->
  exists a b c d,
    packed = [a; b; c; d]
    /\ n = a * 16777216 + b * 65536 + c * 256 + d
    /\ 0 <= a <= 255 /\ 0 <= b <= 255 /\ 0 <= c <= 255 /\ 0 <= d <= 255.
Proof.
  unfold pack_I.
  destruct (Z.leb_spec 0 n), (Z.leb_spec n 4294967295); cbn [andb]; try discriminate.
  intros [= <-]. do 4 eexists. split; [reflexivity|].
  change 255 with (Z.ones 8). rewrite !Z.land_ones, !Z.shiftr_div_pow2 by lia.
  change (2 ^ 24) with 16777216. change (2 ^ 16) with 65536.
  change (2 ^ 8) with 256. change (Z.ones 8) with 255.
  repeat split; try (pose proof (Z.mod_pos_bound n 256);
             pose proof (Z.mod_pos_bound (n / 256) 256);
             pose proof (Z.mod_pos_bound (n / 65536) 256);
             pose proof (Z.mod_pos_bound (n / 16777216) 256); lia).
  Z.to_euclidean_division_equations. lia.
Qed.

(** X18. [intToIp] returns for the integers from 0 to 2^32 - 1 and leaves
    by [struct.error] for all others; on those it returns for, it is one
    to one: two different numbers never give the same text. *)
Theorem intToIp_one_to_one (n n' : Z) :
  (intToIp n = None <-> ~ 0 <= n <= 4294967295)
  /\ (forall s, intToIp n = Some s -> intToIp n' = Some s -> n = n').
Proof.
  split.
  - unfold intToIp, pack_I.
    destruct (Z.leb_spec 0 n), (Z.leb_spec n 4294967295); cbn [andb]; split;
      try lia; try discriminate; reflexivity.
  - unfold intToIp. intros s.
    destruct (pack_I n) as [packed|] eqn:Hn; [|discriminate].
    destruct (pack_I n') as [packed'|] eqn:Hn'; [|discriminate].
    apply pack_I_value in Hn as (a & b & c & d & -> & -> & _).
    apply pack_I_value in Hn' as (a' & b' & c' & d' & -> & -> & _).
    intros [= <-] [= Htext]. apply inet_ntoa_inj in Htext as (-> & -> & -> & ->).
    reflexivity.
Qed.

Lemma foldl_pointwise {A B} (g h : A -> B -> A) (l : list B) :
  (forall a b, g a b = h a b) -> forall a, foldl g a l = foldl h a l.
Proof.
  intros Hgh. induction l as [|b l IH]; intros a; cbn; [reflexivity|].
  now rewrite Hgh, IH.
Qed.

Lemma foldl_seq_S {A} (g : A -> nat -> A) (n : nat) : forall a start,
  foldl g a (seq (S start) n) = foldl (fun a k => g a (S k)) a (seq start n).
Proof. induction n as [|n IH]; intros a start; cbn; [reflexivity|apply IH]. Qed.

(** The loop of [ipLoop] keeps [count] at the same distance from [ip]. *)
Lemma ipLoop_invariant {St} (check_function : Z -> Z -> St -> St) (n : nat) :
  forall (i count : Z) (st : St),
    foldl (fun '(st, count) ip => (check_function ip count st, count + 1))
      (st, count)
      ((fix from (n : nat) (i : Z) : list Z :=
          match n with
          | O => []
          | S n' => i :: from n' (i + 1)
          end) n i)
    = (foldl (fun st k => check_function (i + Z.of_nat k) (count + Z.of_nat k) st)
         st (seq 0 n),
       count + Z.of_nat n).
Proof.
  induction n as [|n IH]; intros i count st.
  - cbn. f_equal. lia.
  - cbn [foldl seq]. rewrite IH, foldl_seq_S.
    replace (i + Z.of_nat 0) with i by lia.
    replace (count + Z.of_nat 0) with count by lia.
    f_equal; [|lia].
    apply foldl_pointwise. intros st' k. f_equal; lia.
Qed.

(** X19. [ipLoop] leaves by [struct.error] when a bound is not an address
    of 32 bits, before any call of [check_function]; it returns [False]
    without a call when the bounds are inverted; otherwise it returns
    [True] after calling [check_function] once for every address from
    [ip_begin] to [ip_end], in ascending order, each with its rank from 0. *)
Theorem ipLoop_calls {St} (ip_begin ip_end : Z)
    (check_function : Z -> Z -> St -> St) (st : St) :
  ipLoop ip_begin ip_end check_function st
  = if (0 <=? ip_begin) && (ip_begin <=? 4294967295)
       && (0 <=? ip_end) && (ip_end <=? 4294967295) then
      if ip_begin >? ip_end then Some (false, st)
      else Some (true,
                 foldl (fun st k =>
                          check_function (ip_begin + Z.of_nat k) (Z.of_nat k) st)
                       st (seq 0 (Z.to_nat (ip_end - ip_begin + 1))))
    else None.
Proof.
  unfold ipLoop, intToIp, pack_I.
  destruct ((0 <=? ip_begin) && (ip_begin <=? 4294967295)); cbn [andb];
    [|reflexivity].
  destruct ((0 <=? ip_end) && (ip_end <=? 4294967295)); cbn [andb];
    [|reflexivity].
  destruct (ip_begin >? ip_end); [reflexivity|].
  unfold xrange.
  rewrite (ipLoop_invariant check_function
             (Z.to_nat (ip_end + 1 - ip_begin)) ip_begin 0 st).
  replace (ip_end + 1 - ip_begin) with (ip_end - ip_begin + 1) by lia.
  reflexivity.
Qed.

End Ip_text.

(** ** Runs that meet the hypotheses of the further properties *)

(** Witness of [parseMaxRights_Permutation]: two lines, swapped. *)
Lemma parseMaxRights_Permutation_witness :
  Rights.parseMaxRights
    ["drwxr-x--- 2 ftp ftp 4096 Jan 01 00:00 dirA";
     "-rw-r--r-- 1 ftp ftp 12 Jan 01 00:00 fileA"]
  = Rights.parseMaxRights
      ["-rw-r--r-- 1 ftp ftp 12 Jan 01 00:00 fileA";
       "drwxr-x--- 2 ftp ftp 4096 Jan 01 00:00 dirA"].
Proof. apply parseMaxRights_Permutation. apply perm_swap. Defined.

(** Witness of [scan_keys]: the root of /pub/sub/deep.txt, /readme.txt. *)
Lemma scan_keys_witness :
  exists paths s',
    respond NLST (server_state (MockFS.connect Inputs.three_levels)) = (Ok paths, s')
    /\ dom (dict [("pub", Subtree (dict [("sub", Subtree (dict [("deep.txt", Leaf)]))]));
                  ("readme.txt", Leaf)])
       = list_to_set (entry_name <$> List.filter listed paths).
Proof.
  eapply (scan_keys (H := MockFS.server) 4 (-1) (-1) (PyBool true) (-1) 0
            (MockFS.connect Inputs.three_levels)).
  vm_compute. reflexivity.
Defined.

(** Witness of [scan_raises]: the root listing fails with [error_temp]. *)
Lemma scan_raises_witness :
  error_temp = error_other
  \/ issued (Script.connect [Err error_temp])
            (Connection [] [(NLST, Err error_temp)]) [(NLST, Err error_temp)].
Proof.
  apply (scan_raises (H := Script.server) 1 (-1) (-1) (PyBool true) (-1) 0).
  reflexivity.
Defined.

(** Witness of [scan_never_cut]: a scan with [max_depth = 0]. *)
Lemma scan_never_cut_witness :
  cut_free
    (Subtree (dict [("pub", Subtree (dict [("sub", Subtree (dict [("deep.txt", Leaf)]))]));
                    ("readme.txt", Leaf)])).
Proof.
  eapply (scan_never_cut (H := MockFS.server) 4 0 (-1)
            (MockFS.connect Inputs.three_levels)).
  - left. lia.
  - vm_compute. reflexivity.
Defined.


(** Witness of [MockFS_facts.scan_restores_cwd]: a tree of height 2 and
    fuel 4. *)
Lemma scan_restores_cwd_witness :
  MockFS.restoring (4 <= MockFS.height Inputs.all_listable)%nat
    (__getContent 4 (-1) (-1) (PyBool true) (-1) 0)
    (MockFS.State Inputs.all_listable []).
Proof.
  apply (MockFS_facts.scan_restores_cwd 4 (-1) (-1) (PyBool true) (-1) 0
           Inputs.all_listable [] true
           [("private", MockFS.Folder true [("secret.txt", MockFS.File)]);
            ("pub", MockFS.Folder true [("file.txt", MockFS.File)])]).
  - reflexivity.
  - reflexivity.
Defined.

(** Witnesses for [getValidPublicIps]: the addresses from 171.30.0.0 to
    192.88.97.255 of the demo (lines 235-238). *)
Lemma getValidPublicIps_within_witness :
  within [(2870870016, 2886729727); (2887778304, 3221225471);
          (3221225728, 3221225983); (3221226240, 3227017727)] 3221225800
  <-> 2870870016 <= 3221225800 <= 3227017727
      /\ within Ip.getValidPublicIpRange 3221225800.
Proof.
  apply (Ip_facts.getValidPublicIps_within 2870870016 3227017727).
  vm_compute. reflexivity.
Defined.

Lemma getValidPublicIps_ascending_witness :
  ascending [(2870870016, 2886729727); (2887778304, 3221225471);
             (3221225728, 3221225983); (3221226240, 3227017727)].
Proof.
  apply (Ip_facts.getValidPublicIps_ascending 2870870016 3227017727).
  vm_compute. reflexivity.
Defined.

Lemma getValidPublicIps_addresses_witness :
  addresses [(2870870016, 2886729727); (2887778304, 3221225471);
             (3221225728, 3221225983); (3221226240, 3227017727)]
  <= Z.max 0 (3227017727 - 2870870016 + 1).
Proof.
  apply (Ip_facts.getValidPublicIps_addresses 2870870016 3227017727).
  vm_compute. reflexivity.
Defined.

(** Witness of [Ip_text.intToIp_one_to_one]: 127.0.0.1, and -1. *)
Lemma intToIp_one_to_one_witness :
  Ip.intToIp 2130706433 = Some "127.0.0.1"
  /\ Ip.intToIp (-1) = None
  /\ 2130706433 = 2130706433.
Proof.
  split; [vm_compute; reflexivity|]. split.
  - apply (proj1 (Ip_text.intToIp_one_to_one (-1) 0)). lia.
  - apply (proj2 (Ip_text.intToIp_one_to_one 2130706433 2130706433) "127.0.0.1");
      vm_compute; reflexivity.
Defined.
